(** * wallet-revamp: the wallet derivation engine and the wallet collection

    A shallow embedding of [WalletGenerator] (the component with the custom
    [derivePath], and its sibling that imports [derivePath] from the
    ed25519-hd-key package), with the properties of the specification that
    concern the path deriver and the wallet collection manager.

    Layout: byte buffers and hexadecimal text; SHA-512 ([nacl.hash]) and
    HMAC-SHA512; the JavaScript string primitives the component calls; the
    custom [derivePath]; the package's [derivePath]; the component state,
    its persistence and its handlers; what the page renders and the
    events it answers; then the theorems. *)

From Stdlib Require Import ZArith NArith List Bool Lia.
From Stdlib.Strings Require Import String Ascii Byte.
Import ListNotations.

Local Open Scope Z_scope.

(* ------------------------------------------------------------------ *)
(** ** Byte buffers *)

Module Buf.

(** A [Buffer] is a sequence of bytes. *)
Definition t := list byte.

Definition toZ (b : byte) : Z := Z.of_N (Byte.to_N b).

(** Storing a number into a [Uint8Array] cell keeps its low eight bits. *)
Definition ofZ (z : Z) : byte :=
  match Byte.of_N (Z.to_N (Z.land z 255)) with
  | Some b => b
  | None => x00
  end.

(** Big-endian bytes of the low [8 * n] bits of [z]. *)
Fixpoint be (n : nat) (z : Z) : t :=
  match n with
  | O => []
  | S k => ofZ (Z.shiftr z (8 * Z.of_nat k)) :: be k z
  end.

(** The number a big-endian byte sequence denotes. *)
Definition unbe (bs : t) : Z :=
  fold_left (fun acc b => acc * 256 + toZ b) bs 0.

(** [Buffer.alloc(n, v)]. *)
Definition alloc (n : nat) (v : byte) : t := repeat v n.

(** [buf.slice(0, n)]. *)
Definition slice0 (n : nat) (b : t) : t := firstn n b.

(** Cut a buffer into chunks of [n] bytes ([fuel] bounds the number of
    chunks; a trailing short chunk is kept). *)
Fixpoint chunks (fuel n : nat) (b : t) : list t :=
  match fuel with
  | O => []
  | S f =>
      match b with
      | [] => []
      | _ => firstn n b :: chunks f n (skipn n b)
      end
  end.

End Buf.

(* ------------------------------------------------------------------ *)
(** ** Hexadecimal text: [buf.toString("hex")] and [Buffer.from(s, "hex")] *)

Module Hex.

Definition code (c : ascii) : Z := Z.of_N (N_of_ascii c).

Definition chr (z : Z) : ascii := ascii_of_N (Z.to_N z).

(** Lowercase digit of a nibble. *)
Definition digit (n : Z) : ascii :=
  if n <? 10 then chr (48 + n) else chr (87 + n).

(** Value of a hexadecimal digit, either case. *)
Definition value (c : ascii) : option Z :=
  let k := code c in
  if (48 <=? k) && (k <=? 57) then Some (k - 48)
  else if (97 <=? k) && (k <=? 102) then Some (k - 87)
  else if (65 <=? k) && (k <=? 70) then Some (k - 55)
  else None.

(** [buf.toString("hex")]: two lowercase digits per byte. *)
Fixpoint encode (b : Buf.t) : string :=
  match b with
  | [] => EmptyString
  | x :: r =>
      String (digit (Buf.toZ x / 16))
        (String (digit (Buf.toZ x mod 16)) (encode r))
  end.

(** [Buffer.from(s, "hex")]: decodes pairs of digits and stops at the
    first pair that is not hexadecimal (or at a trailing single
    character).  This is exact on the text [toString("hex")] produces,
    the only text the component passes; on other text [Buffer.from] does
    not throw either, and what it decodes is no concern here. *)
Fixpoint decode (s : string) : Buf.t :=
  match s with
  | String h (String l r) =>
      match value h, value l with
      | Some a, Some b => Buf.ofZ (16 * a + b) :: decode r
      | _, _ => []
      end
  | _ => []
  end.

End Hex.

(* ------------------------------------------------------------------ *)
(** ** SHA-512, the function behind [nacl.hash] (FIPS 180-4) *)

Module SHA512.

Definition mask64 : Z := 0xffffffffffffffff.

(** The low 64 bits of a number: arithmetic on words wraps around. *)
Definition w64 (z : Z) : Z := Z.land z mask64.

Definition add (a b : Z) : Z := w64 (a + b).

Definition rotr (n x : Z) : Z :=
  Z.lor (Z.shiftr x n) (w64 (Z.shiftl x (64 - n))).

Definition shr (n x : Z) : Z := Z.shiftr x n.

Definition Ch (x y z : Z) : Z :=
  Z.lxor (Z.land x y) (Z.land (Z.lxor x mask64) z).

Definition Maj (x y z : Z) : Z :=
  Z.lxor (Z.lxor (Z.land x y) (Z.land x z)) (Z.land y z).

Definition Sigma0 (x : Z) : Z :=
  Z.lxor (Z.lxor (rotr 28 x) (rotr 34 x)) (rotr 39 x).

Definition Sigma1 (x : Z) : Z :=
  Z.lxor (Z.lxor (rotr 14 x) (rotr 18 x)) (rotr 41 x).

Definition sigma0 (x : Z) : Z :=
  Z.lxor (Z.lxor (rotr 1 x) (rotr 8 x)) (shr 7 x).

Definition sigma1 (x : Z) : Z :=
  Z.lxor (Z.lxor (rotr 19 x) (rotr 61 x)) (shr 6 x).

Definition K : list Z :=
  [ 0x428a2f98d728ae22; 0x7137449123ef65cd; 0xb5c0fbcfec4d3b2f; 0xe9b5dba58189dbbc;
    0x3956c25bf348b538; 0x59f111f1b605d019; 0x923f82a4af194f9b; 0xab1c5ed5da6d8118;
    0xd807aa98a3030242; 0x12835b0145706fbe; 0x243185be4ee4b28c; 0x550c7dc3d5ffb4e2;
    0x72be5d74f27b896f; 0x80deb1fe3b1696b1; 0x9bdc06a725c71235; 0xc19bf174cf692694;
    0xe49b69c19ef14ad2; 0xefbe4786384f25e3; 0x0fc19dc68b8cd5b5; 0x240ca1cc77ac9c65;
    0x2de92c6f592b0275; 0x4a7484aa6ea6e483; 0x5cb0a9dcbd41fbd4; 0x76f988da831153b5;
    0x983e5152ee66dfab; 0xa831c66d2db43210; 0xb00327c898fb213f; 0xbf597fc7beef0ee4;
    0xc6e00bf33da88fc2; 0xd5a79147930aa725; 0x06ca6351e003826f; 0x142929670a0e6e70;
    0x27b70a8546d22ffc; 0x2e1b21385c26c926; 0x4d2c6dfc5ac42aed; 0x53380d139d95b3df;
    0x650a73548baf63de; 0x766a0abb3c77b2a8; 0x81c2c92e47edaee6; 0x92722c851482353b;
    0xa2bfe8a14cf10364; 0xa81a664bbc423001; 0xc24b8b70d0f89791; 0xc76c51a30654be30;
    0xd192e819d6ef5218; 0xd69906245565a910; 0xf40e35855771202a; 0x106aa07032bbd1b8;
    0x19a4c116b8d2d0c8; 0x1e376c085141ab53; 0x2748774cdf8eeb99; 0x34b0bcb5e19b48a8;
    0x391c0cb3c5c95a63; 0x4ed8aa4ae3418acb; 0x5b9cca4f7763e373; 0x682e6ff3d6b2b8a3;
    0x748f82ee5defb2fc; 0x78a5636f43172f60; 0x84c87814a1f0ab72; 0x8cc702081a6439ec;
    0x90befffa23631e28; 0xa4506cebde82bde9; 0xbef9a3f7b2c67915; 0xc67178f2e372532b;
    0xca273eceea26619c; 0xd186b8c721c0c207; 0xeada7dd6cde0eb1e; 0xf57d4f7fee6ed178;
    0x06f067aa72176fba; 0x0a637dc5a2c898a6; 0x113f9804bef90dae; 0x1b710b35131c471b;
    0x28db77f523047d84; 0x32caab7b40c72493; 0x3c9ebe0a15c9bebc; 0x431d67c49c100d4c;
    0x4cc5d4becb3e42b6; 0x597f299cfc657e2a; 0x5fcb6fab3ad6faec; 0x6c44198c4a475817 ].

Definition H0 : list Z :=
  [ 0x6a09e667f3bcc908; 0xbb67ae8584caa73b; 0x3c6ef372fe94f82b; 0xa54ff53a5f1d36f1;
    0x510e527fade682d1; 0x9b05688c2b3e6c1f; 0x1f83d9abfb41bd6b; 0x5be0cd19137e2179 ].

(** Padding: a 1 bit, zeros up to 112 modulo 128 bytes, then the bit
    length of the message on 16 bytes. *)
Definition pad (msg : Buf.t) : Buf.t :=
  let len := Z.of_nat (List.length msg) in
  let zeros := Z.to_nat ((111 - len) mod 128) in
  msg ++ [x80] ++ Buf.alloc zeros x00 ++ Buf.be 16 (8 * len).

(** The sixteen 64-bit words of a 128-byte block. *)
Definition words (block : Buf.t) : list Z :=
  map Buf.unbe (Buf.chunks 16 8 block).

(** Message schedule: [win] holds the last sixteen words, oldest first;
    each step appends W[t] and slides the window. *)
Fixpoint extend (n : nat) (win : list Z) : list Z :=
  match n with
  | O => []
  | S k =>
      let w := add (add (sigma1 (nth 14 win 0)) (nth 9 win 0))
                   (add (sigma0 (nth 1 win 0)) (nth 0 win 0)) in
      w :: extend k (tl win ++ [w])
  end.

Definition schedule (block : Buf.t) : list Z :=
  let w := words block in w ++ extend 64 w.

Record regs := Regs { ra : Z; rb : Z; rc : Z; rd : Z; re : Z; rf : Z; rg : Z; rh : Z }.

Definition round (s : regs) (kw : Z * Z) : regs :=
  let t1 := add (add (add (rh s) (Sigma1 (re s))) (Ch (re s) (rf s) (rg s)))
                (add (fst kw) (snd kw)) in
  let t2 := add (Sigma0 (ra s)) (Maj (ra s) (rb s) (rc s)) in
  Regs (add t1 t2) (ra s) (rb s) (rc s) (add (rd s) t1) (re s) (rf s) (rg s).

Definition ofList (h : list Z) : regs :=
  Regs (nth 0 h 0) (nth 1 h 0) (nth 2 h 0) (nth 3 h 0)
       (nth 4 h 0) (nth 5 h 0) (nth 6 h 0) (nth 7 h 0).

Definition toList (s : regs) : list Z :=
  [ra s; rb s; rc s; rd s; re s; rf s; rg s; rh s].

Definition compress (h : list Z) (block : Buf.t) : list Z :=
  let s := fold_left round (combine K (schedule block)) (ofList h) in
  map (fun p => add (fst p) (snd p)) (combine h (toList s)).

Definition hash (msg : Buf.t) : Buf.t :=
  let p := pad msg in
  let h := fold_left compress (Buf.chunks (List.length p) 128 p) H0 in
  flat_map (Buf.be 8) h.

End SHA512.

(** [nacl.hash(data)]: the SHA-512 digest, 64 bytes.  tweetnacl is a
    dependency; its hash is the standard's, checked on the standard's
    vectors among the checks of the primitives. *)
Definition nacl_hash (data : Buf.t) : Buf.t := SHA512.hash data.

(** The bytes of an ASCII text. *)
Definition bytes_of_string (s : string) : Buf.t :=
  map (fun c => Buf.ofZ (Hex.code c)) (list_ascii_of_string s).

(* ------------------------------------------------------------------ *)
(** ** HMAC-SHA512: [createHmac("sha512", key).update(data).digest()] (RFC 2104) *)

Module HMAC.

Definition blockSize : nat := 128.

Definition xorWith (p : byte) (b : byte) : byte :=
  Buf.ofZ (Z.lxor (Buf.toZ b) (Buf.toZ p)).

(** A key longer than a block is hashed first; the key is then filled
    with zeros to a whole block. *)
Definition blockKey (key : Buf.t) : Buf.t :=
  let k := if (blockSize <? List.length key)%nat then nacl_hash key else key in
  k ++ Buf.alloc (blockSize - List.length k) x00.

Definition sha512 (key data : Buf.t) : Buf.t :=
  let k := blockKey key in
  nacl_hash (map (xorWith x5c) k ++ nacl_hash (map (xorWith x36) k ++ data)).

End HMAC.

(* ------------------------------------------------------------------ *)
(** ** The JavaScript string primitives the component calls

    Strings are sequences of 8-bit code units, enough for the ASCII text
    the component builds (paths, decimal numbers, hexadecimal digests). *)

Module JS.

Definition code := Hex.code.

(** [WhiteSpace] and [LineTerminator] code units below 256: TAB, LF, VT,
    FF, CR, SP and NBSP. *)
Definition isWhite (c : ascii) : bool :=
  let k := code c in
  ((9 <=? k) && (k <=? 13)) || (k =? 32) || (k =? 160).

Definition isDigit (c : ascii) : bool :=
  let k := code c in (48 <=? k) && (k <=? 57).

Fixpoint allDigits (s : string) : bool :=
  match s with
  | EmptyString => true
  | String c r => isDigit c && allDigits r
  end.

(** No character of [s] is [sep]. *)
Fixpoint without (sep : ascii) (s : string) : bool :=
  match s with
  | EmptyString => true
  | String c r => negb (Ascii.eqb c sep) && without sep r
  end.

(** [s.split(sep)] for a one-character separator: never empty, and one
    more piece than there are separators. *)
Fixpoint split (sep : ascii) (s : string) : list string :=
  match s with
  | EmptyString => [EmptyString]
  | String c r =>
      if Ascii.eqb c sep then EmptyString :: split sep r
      else
        match split sep r with
        | h :: t => String c h :: t
        | [] => [String c EmptyString]
        end
  end.

(** [l.join(sep)]. *)
Fixpoint join (sep : string) (l : list string) : string :=
  match l with
  | [] => EmptyString
  | [x] => x
  | x :: r => (x ++ sep ++ join sep r)%string
  end.

(** [s.endsWith(c)] for a one-character suffix. *)
Fixpoint endsWith (s : string) (c : ascii) : bool :=
  match s with
  | EmptyString => false
  | String a EmptyString => Ascii.eqb a c
  | String _ r => endsWith r c
  end.

(** [s.slice(0, -1)]: all but the last character. *)
Fixpoint dropLast (s : string) : string :=
  match s with
  | EmptyString => EmptyString
  | String _ EmptyString => EmptyString
  | String a r => String a (dropLast r)
  end.

Fixpoint trimStart (s : string) : string :=
  match s with
  | String c r => if isWhite c then trimStart r else s
  | EmptyString => EmptyString
  end.

(** Keeps a character when it is not white space or something is kept
    after it. *)
Fixpoint trimEnd (s : string) : string :=
  match s with
  | EmptyString => EmptyString
  | String c r =>
      match trimEnd r with
      | EmptyString => if isWhite c then EmptyString else String c EmptyString
      | r' => String c r'
      end
  end.

(** [s.trim()]. *)
Definition trim (s : string) : string := trimEnd (trimStart s).

(** Value of a character as a digit in [radix] (10 or 16). *)
Definition digitIn (radix : Z) (c : ascii) : option Z :=
  match Hex.value c with
  | Some d => if d <? radix then Some d else None
  | None => None
  end.

(** The longest prefix of digits, read left to right; [seen] records
    whether any digit was read. *)
Fixpoint digits (radix : Z) (s : string) (seen : bool) (acc : Z) : option Z :=
  match s with
  | String c r =>
      match digitIn radix c with
      | Some d => digits radix r true (acc * radix + d)
      | None => if seen then Some acc else None
      end
  | EmptyString => if seen then Some acc else None
  end.

(** [parseInt(s)] with no radix: leading white space, an optional sign,
    an optional [0x] prefix that selects radix 16, then the longest
    prefix of digits; [None] is NaN.  The result is the exact integer:
    JavaScript rounds it to a double beyond 2^53, which no caller here
    can observe, since the only consumer rejects every magnitude of
    2^32 and more. *)
Definition parseInt (s : string) : option Z :=
  let s1 := trimStart s in
  let (sign, s2) :=
    match s1 with
    | String "-"%char r => (-1, r)
    | String "+"%char r => (1, r)
    | _ => (1, s1)
    end in
  let (radix, s3) :=
    match s2 with
    | String "0"%char (String "x"%char r) => (16, r)
    | String "0"%char (String "X"%char r) => (16, r)
    | _ => (10, s2)
    end in
  option_map (Z.mul sign) (digits radix s3 false 0).

(** Decimal digits of [n], most significant first, in front of [acc]. *)
Fixpoint decimal (fuel : nat) (n : Z) (acc : string) : string :=
  let acc' := String (Hex.chr (48 + n mod 10)) acc in
  match fuel with
  | O => acc'
  | S f => if n <? 10 then acc' else decimal f (n / 10) acc'
  end.

(** [String(n)] for a non-negative integer [n], as a template literal
    prints it. *)
Definition ofZ (n : Z) : string :=
  decimal (Z.to_nat (Z.log2 n)) n EmptyString.

End JS.

(* ------------------------------------------------------------------ *)
(** ** The custom [derivePath] (the replacement for the package's) *)

(** What a call evaluates to: a value, or the exception it throws. *)
Inductive result (A : Type) : Type :=
| Ok (a : A)
| Throw (e : string).

Arguments Ok {A} a.
Arguments Throw {A} e.

(** [buf.writeUInt32BE(value, 0)] on a fresh four-byte buffer: the value
    ([None] is NaN) is checked against [0 .. 0xffffffff] with the two
    comparisons [value > max || value < min], both false on NaN, and each
    byte is then stored from [value >>> k], which is 0 on NaN. *)
Definition writeUInt32BE (value : option Z) : result Buf.t :=
  match value with
  | None => Ok (Buf.alloc 4 x00)
  | Some v =>
      if (v >? 0xffffffff) || (v <? 0)
      then Throw "RangeError"
      else Ok (Buf.be 4 v)
  end.

(** One turn of the loop over the path's segments. *)
Definition deriveSegment (currentSeed : Buf.t) (segment : string) : result Buf.t :=
  let hardened := JS.endsWith segment "'" in
  let segment := if hardened then JS.dropLast segment else segment in
  if hardened then
    match writeUInt32BE (option_map (fun n => n + 0x80000000) (JS.parseInt segment)) with
    | Throw e => Throw e
    | Ok indexBuffer =>
        let data := [x00] ++ currentSeed ++ indexBuffer in
        Ok (Buf.slice0 32 (nacl_hash data))
    end
  else Ok currentSeed.

Fixpoint deriveSegments (segments : list string) (currentSeed : Buf.t) : result Buf.t :=
  match segments with
  | [] => Ok currentSeed
  | segment :: rest =>
      match deriveSegment currentSeed segment with
      | Ok next => deriveSegments rest next
      | Throw e => Throw e
      end
  end.

(** [derivePath(path, seed).key]: [seed] is hexadecimal text; the loop
    starts at the second piece of the path. *)
Definition derivePath (path seed : string) : result Buf.t :=
  let seedBuffer := Hex.decode seed in
  let segments := JS.split "/" path in
  deriveSegments (tl segments) seedBuffer.

(* ------------------------------------------------------------------ *)
(** ** [derivePath] of the ed25519-hd-key package *)

Module HDKey.

(** The package ed25519-hd-key, which the first component imports
    [derivePath] from, is a dependency and not in the sources.  It is
    modelled here from Section 4.2 (a) of the specification, with the
    constants of SLIP-0010 for Ed25519, whose first test vector is among
    the checks of the primitives. *)

(** A key and its chain code. *)
Record Keys := { key : Buf.t; chainCode : Buf.t }.

Definition ofDigest (I : Buf.t) : Keys :=
  {| key := firstn 32 I; chainCode := skipn 32 I |}.

(** Modelled from the spec: the master key and chain code computed from
    the seed, the two halves of HMAC-SHA512 under the key ["ed25519 seed"]. *)
Definition getMasterKeyFromSeed (seed : string) : Keys :=
  ofDigest (HMAC.sha512 (bytes_of_string "ed25519 seed") (Hex.decode seed)).

(** Modelled from the spec: the child pair of a hardened index, the two
    halves of HMAC-SHA512 under the parent's chain code of
    [0x00 ‖ key ‖ index], the index on four big-endian bytes. *)
Definition CKDPriv (parent : Keys) (index : Z) : result Keys :=
  match writeUInt32BE (Some index) with
  | Throw e => Throw e
  | Ok indexBuffer =>
      let data := [x00] ++ key parent ++ indexBuffer in
      Ok (ofDigest (HMAC.sha512 (chainCode parent) data))
  end.

(** A segment of a valid path: one digit or more, then the hardened
    marker. *)
Definition validSegment (s : string) : bool :=
  JS.endsWith s "'" && JS.allDigits (JS.dropLast s)
  && negb (String.eqb (JS.dropLast s) EmptyString).

(** The path is [m] followed by one valid segment or more. *)
Definition isValidPath (path : string) : bool :=
  match JS.split "/" path with
  | m :: ((_ :: _) as segments) =>
      String.eqb m "m" && forallb validSegment segments
  | _ => false
  end.

Fixpoint reduce (segments : list string) (parent : Keys) : result Keys :=
  match segments with
  | [] => Ok parent
  | segment :: rest =>
      match JS.parseInt (JS.dropLast segment) with
      | None => Throw "InvalidPath"
      | Some n =>
          match CKDPriv parent (n + 0x80000000) with
          | Ok child => reduce rest child
          | Throw e => Throw e
          end
      end
  end.

(** Modelled from the spec: [derivePath] of the package ed25519-hd-key,
    which is not in the sources.  "Standard BIP32-Ed25519 hierarchical
    derivation: iteratively HMAC-SHA512-derives a (key, chain-code) pair
    per hardened path segment, starting from the master key/chain-code
    computed from the seed"; "malformed path (segment not parseable as a
    non-negative integer, or missing the hardened marker) fails with
    InvalidPath". *)
Definition derivePath (path seed : string) : result Buf.t :=
  if isValidPath path then
    match reduce (tl (JS.split "/" path)) (getMasterKeyFromSeed seed) with
    | Ok k => Ok (key k)
    | Throw e => Throw e
    end
  else Throw "InvalidPath".

End HDKey.

(** The seed of the specification's scenario, as hexadecimal text: the 64
    bytes BIP39 stretches out of the phrase [abandon] (eleven times)
    [about] with no passphrase, which is what both components hand to
    their [derivePath] for that phrase. *)
Definition scenarioSeed : string :=
  "5eb00bbddcf069084889a8ab9155568165f5c453ccb85e70811aaed6f6da5fc19a5ac40b389cd370d086206dec8aa6c43daea6690f20ad3d8d48b2d2ce9e38e4".

(* ------------------------------------------------------------------ *)
(** ** The component: state, persistence, notifications *)

Record Wallet : Type := {
  publicKey : string;
  privateKey : string;
  mnemonic : string;
  path : string
}.

(** What [localStorage.getItem] finds under a key, read through
    [JSON.parse]: a text that parses to a value of the shape the component
    stores there (what [JSON.stringify] writes), a non-empty text on which
    [JSON.parse] throws, or the empty text, which is falsy. *)
Inductive Item (A : Type) : Type :=
| Json (v : A)
| Malformed
| EmptyText.

Arguments Json {A} v.
Arguments Malformed {A}.
Arguments EmptyText {A}.

(** The three keys of the key-value store: ["wallets"], ["mnemonics"] and
    ["paths"]; [None] is an absent key. *)
Record Storage : Type := {
  key_wallets : option (Item (list Wallet));
  key_mnemonics : option (Item (list string));
  key_paths : option (Item (list string))
}.

(** Whether the store holds an entry under [key]. *)
Definition hasItem (store : Storage) (key : string) : bool :=
  if String.eqb key "wallets" then
    match key_wallets store with Some _ => true | None => false end
  else if String.eqb key "mnemonics" then
    match key_mnemonics store with Some _ => true | None => false end
  else if String.eqb key "paths" then
    match key_paths store with Some _ => true | None => false end
  else false.

Inductive Toast : Type :=
| toast_success (msg : string)
| toast_error (msg : string)
| toast_info (msg : string)
| toast_warning (msg : string).

(** The state hooks of [WalletGenerator], the store it persists to and
    the notifications it has emitted, oldest first.  The two components
    declare the same hooks and the same handlers, word for word; they
    differ in the [derivePath] they call. *)
Record App : Type := {
  mnemonicWords : list string;
  pathTypes : list string;
  wallets : list Wallet;
  showMnemonic : bool;
  mnemonicInput : string;
  visiblePrivateKeys : list bool;
  gridView : bool;
  localStorage : Storage;
  toasts : list Toast
}.

Definition setMnemonicWords (v : list string) (s : App) : App :=
  {| mnemonicWords := v; pathTypes := pathTypes s; wallets := wallets s;
     showMnemonic := showMnemonic s; mnemonicInput := mnemonicInput s;
     visiblePrivateKeys := visiblePrivateKeys s; gridView := gridView s;
     localStorage := localStorage s; toasts := toasts s |}.

Definition setPathTypes (v : list string) (s : App) : App :=
  {| mnemonicWords := mnemonicWords s; pathTypes := v; wallets := wallets s;
     showMnemonic := showMnemonic s; mnemonicInput := mnemonicInput s;
     visiblePrivateKeys := visiblePrivateKeys s; gridView := gridView s;
     localStorage := localStorage s; toasts := toasts s |}.

Definition setWallets (v : list Wallet) (s : App) : App :=
  {| mnemonicWords := mnemonicWords s; pathTypes := pathTypes s; wallets := v;
     showMnemonic := showMnemonic s; mnemonicInput := mnemonicInput s;
     visiblePrivateKeys := visiblePrivateKeys s; gridView := gridView s;
     localStorage := localStorage s; toasts := toasts s |}.

Definition setMnemonicInput (v : string) (s : App) : App :=
  {| mnemonicWords := mnemonicWords s; pathTypes := pathTypes s; wallets := wallets s;
     showMnemonic := showMnemonic s; mnemonicInput := v;
     visiblePrivateKeys := visiblePrivateKeys s; gridView := gridView s;
     localStorage := localStorage s; toasts := toasts s |}.

Definition setVisiblePrivateKeys (v : list bool) (s : App) : App :=
  {| mnemonicWords := mnemonicWords s; pathTypes := pathTypes s; wallets := wallets s;
     showMnemonic := showMnemonic s; mnemonicInput := mnemonicInput s;
     visiblePrivateKeys := v; gridView := gridView s;
     localStorage := localStorage s; toasts := toasts s |}.

Definition setLocalStorage (v : Storage) (s : App) : App :=
  {| mnemonicWords := mnemonicWords s; pathTypes := pathTypes s; wallets := wallets s;
     showMnemonic := showMnemonic s; mnemonicInput := mnemonicInput s;
     visiblePrivateKeys := visiblePrivateKeys s; gridView := gridView s;
     localStorage := v; toasts := toasts s |}.

(** [toast.success(..)] and the like: one more notification. *)
Definition toast (t : Toast) (s : App) : App :=
  {| mnemonicWords := mnemonicWords s; pathTypes := pathTypes s; wallets := wallets s;
     showMnemonic := showMnemonic s; mnemonicInput := mnemonicInput s;
     visiblePrivateKeys := visiblePrivateKeys s; gridView := gridView s;
     localStorage := localStorage s; toasts := toasts s ++ [t] |}.

(** [localStorage.setItem(key, JSON.stringify(v))], per key. *)
Definition setItem_wallets (v : list Wallet) (s : App) : App :=
  setLocalStorage
    {| key_wallets := Some (Json v);
       key_mnemonics := key_mnemonics (localStorage s);
       key_paths := key_paths (localStorage s) |} s.

Definition setItem_mnemonics (v : list string) (s : App) : App :=
  setLocalStorage
    {| key_wallets := key_wallets (localStorage s);
       key_mnemonics := Some (Json v);
       key_paths := key_paths (localStorage s) |} s.

Definition setItem_paths (v : list string) (s : App) : App :=
  setLocalStorage
    {| key_wallets := key_wallets (localStorage s);
       key_mnemonics := key_mnemonics (localStorage s);
       key_paths := Some (Json v) |} s.

(** [localStorage.removeItem(key)], per key. *)
Definition removeItem_wallets (s : App) : App :=
  setLocalStorage
    {| key_wallets := None;
       key_mnemonics := key_mnemonics (localStorage s);
       key_paths := key_paths (localStorage s) |} s.

Definition removeItem_mnemonics (s : App) : App :=
  setLocalStorage
    {| key_wallets := key_wallets (localStorage s);
       key_mnemonics := None;
       key_paths := key_paths (localStorage s) |} s.

Definition removeItem_paths (s : App) : App :=
  setLocalStorage
    {| key_wallets := key_wallets (localStorage s);
       key_mnemonics := key_mnemonics (localStorage s);
       key_paths := None |} s.

(** Statements in sequence: [s |> f |> g] runs [f], then [g]. *)
Notation "s |> f" := (f s) (at level 45, left associativity, only parsing).

(** [l.filter((_, i) => p(i))] and [l.map((x, i) => f(x, i))]. *)
Fixpoint filterFrom {A : Type} (p : nat -> bool) (i : nat) (l : list A) : list A :=
  match l with
  | [] => []
  | x :: r => if p i then x :: filterFrom p (S i) r else filterFrom p (S i) r
  end.

Definition filterIndex {A : Type} (p : nat -> bool) (l : list A) : list A :=
  filterFrom p 0 l.

Fixpoint mapFrom {A B : Type} (f : A -> nat -> B) (i : nat) (l : list A) : list B :=
  match l with
  | [] => []
  | x :: r => f x i :: mapFrom f (S i) r
  end.

Definition mapIndex {A B : Type} (f : A -> nat -> B) (l : list A) : list B :=
  mapFrom f 0 l.

(** A text is truthy when it is not empty. *)
Definition truthy (s : string) : bool := negb (String.eqb s EmptyString).

(** A stored text is truthy when the key is present and the text not empty. *)
Definition present {A : Type} (i : option (Item A)) : bool :=
  match i with
  | Some (Json _) | Some Malformed => true
  | Some EmptyText | None => false
  end.

(** The initial state of the hooks, over a given store. *)
Definition initial (store : Storage) : App :=
  {| mnemonicWords := []; pathTypes := []; wallets := [];
     showMnemonic := false; mnemonicInput := EmptyString;
     visiblePrivateKeys := []; gridView := false;
     localStorage := store; toasts := [] |}.

Definition emptyStorage : Storage :=
  {| key_wallets := None; key_mnemonics := None; key_paths := None |}.

(** The effect that loads the saved wallets.  Each [JSON.parse] may throw;
    the setters that ran before the exception keep their effect, and the
    handler of the exception reports the failure. *)
Definition loadSavedWallets (s : App) : App :=
  let storedWallets := key_wallets (localStorage s) in
  let storedMnemonic := key_mnemonics (localStorage s) in
  let storedPathTypes := key_paths (localStorage s) in
  let failed := toast (toast_error "Failed to load saved wallets") in
  if present storedWallets && present storedMnemonic && present storedPathTypes then
    match storedMnemonic with
    | Some (Json words) =>
        let s1 := s |> setMnemonicWords words in
        match storedWallets with
        | Some (Json ws) =>
            let s2 := s1 |> setWallets ws in
            match storedPathTypes with
            | Some (Json ps) =>
                s2 |> setPathTypes ps
                   |> setVisiblePrivateKeys (map (fun _ => false) ws)
            | _ => s2 |> failed
            end
        | _ => s1 |> failed
        end
    | _ => s |> failed
    end
  else s.

(** The two buttons of the chain chooser. *)
Definition chooseSolana (s : App) : App :=
  s |> setPathTypes ["501"%string] |> toast (toast_info "Solana selected").

Definition chooseEthereum (s : App) : App :=
  s |> setPathTypes ["60"%string] |> toast (toast_info "Ethereum selected").

Definition handleDeleteWallet (index : nat) (s : App) : App :=
  let keep := fun i => negb (i =? index)%nat in
  let updatedWallets := filterIndex keep (wallets s) in
  let updatedPathTypes := filterIndex keep (pathTypes s) in
  s |> setWallets updatedWallets
    |> setPathTypes updatedPathTypes
    |> setItem_wallets updatedWallets
    |> setItem_paths updatedPathTypes
    |> setVisiblePrivateKeys (filterIndex keep (visiblePrivateKeys s))
    |> toast (toast_success "Wallet deleted").

Definition handleClearWallets (s : App) : App :=
  s |> removeItem_wallets
    |> removeItem_mnemonics
    |> removeItem_paths
    |> setWallets []
    |> setMnemonicWords []
    |> setPathTypes []
    |> setVisiblePrivateKeys []
    |> toast (toast_info "All wallets cleared").

Definition togglePrivateKeyVisibility (index : nat) (s : App) : App :=
  s |> setVisiblePrivateKeys
         (mapIndex (fun visible i => if (i =? index)%nat then negb visible else visible)
                   (visiblePrivateKeys s)).

(* ------------------------------------------------------------------ *)
(** ** The packages the component imports

    bip39, tweetnacl's signing keys, @solana/web3.js, bs58 and ethers are
    dependencies.  The handlers are defined, and their properties proved,
    over any implementation of this interface. *)

Record KeyPair : Type := { kp_publicKey : Buf.t; kp_secretKey : Buf.t }.

Class Packages : Type := {
  (** [validateMnemonic(phrase)] of bip39. *)
  validateMnemonic : string -> bool;
  (** [mnemonicToSeedSync(phrase)] of bip39: the seed buffer. *)
  mnemonicToSeedSync : string -> Buf.t;
  (** [nacl.sign.keyPair.fromSeed(seed)]; throws on a seed of the wrong size. *)
  sign_keyPair_fromSeed : Buf.t -> result KeyPair;
  (** [Keypair.fromSecretKey(secretKey).publicKey], as bytes. *)
  Keypair_fromSecretKey : Buf.t -> result Buf.t;
  (** [bs58.encode(bytes)], also behind [publicKey.toBase58()]. *)
  bs58_encode : Buf.t -> string;
  (** [new ethers.Wallet(privateKey).address]; throws on an invalid key. *)
  ethers_Wallet_address : string -> result string
}.

(** [pathTypes[0]] printed inside a template literal. *)
Definition pathTypeText (pathType : option string) : string :=
  match pathType with
  | Some t => t
  | None => "undefined"
  end.

(** The template [m/44'/${pathType}'/0'/${accountIndex}']. *)
Definition pathOf (pathType : option string) (accountIndex : nat) : string :=
  ("m/44'/" ++ pathTypeText pathType ++ "'/0'/" ++ JS.ofZ (Z.of_nat accountIndex) ++ "'")%string.

(** [pathType === text]. *)
Definition isPathType (pathType : option string) (text : string) : bool :=
  match pathType with
  | Some t => String.eqb t text
  | None => false
  end.

(** The notifications a call emitted, in order. *)
Definition toastAll (ts : list Toast) (s : App) : App :=
  {| mnemonicWords := mnemonicWords s; pathTypes := pathTypes s; wallets := wallets s;
     showMnemonic := showMnemonic s; mnemonicInput := mnemonicInput s;
     visiblePrivateKeys := visiblePrivateKeys s; gridView := gridView s;
     localStorage := localStorage s; toasts := toasts s ++ ts |}.

Section Manager.

Context {pkg : Packages}.

(** The wallet, or [None] for [null], with the notifications emitted on
    the way.  Whatever is thrown inside the [try] block is caught. *)
Definition generateWalletFromMnemonic
    (pathType : option string) (mnemonic : string) (accountIndex : nat)
  : option Wallet * list Toast :=
  let caught :=
    (None, [toast_error "Failed to generate wallet. Check console for details."]) in
  let seedBuffer := mnemonicToSeedSync mnemonic in
  let path := pathOf pathType accountIndex in
  match derivePath path (Hex.encode seedBuffer) with
  | Throw _ => caught
  | Ok derivedSeed =>
      if isPathType pathType "501" then
        match sign_keyPair_fromSeed derivedSeed with
        | Throw _ => caught
        | Ok keyPair =>
            match Keypair_fromSecretKey (kp_secretKey keyPair) with
            | Throw _ => caught
            | Ok solanaPublicKey =>
                (Some {| publicKey := bs58_encode solanaPublicKey;
                         privateKey := bs58_encode (kp_secretKey keyPair);
                         mnemonic := mnemonic;
                         path := path |}, [])
            end
        end
      else if isPathType pathType "60" then
        let privateKey := Hex.encode derivedSeed in
        let privateKeyEncoded := ("0x" ++ privateKey)%string in
        match ethers_Wallet_address privateKeyEncoded with
        | Throw _ => caught
        | Ok address =>
            (Some {| publicKey := address;
                     privateKey := privateKeyEncoded;
                     mnemonic := mnemonic;
                     path := path |}, [])
        end
      else (None, [toast_error "Unsupported blockchain type"])
  end.

(** [handleGenerateWallet], from the point where the phrase is settled. *)
Definition createFrom (mnemonic : string) (s : App) : App :=
  let words := JS.split " " mnemonic in
  let s1 := s |> setMnemonicWords words in
  let (wallet, notes) :=
    generateWalletFromMnemonic (nth_error (pathTypes s) 0) mnemonic
                               (List.length (wallets s)) in
  let s2 := s1 |> toastAll notes in
  match wallet with
  | Some w =>
      let updatedWallets := wallets s ++ [w] in
      s2 |> setWallets updatedWallets
         |> setItem_wallets updatedWallets
         |> setItem_mnemonics words
         |> setItem_paths (pathTypes s)
         |> setVisiblePrivateKeys (visiblePrivateKeys s ++ [false])
         |> toast (toast_success "Wallet created successfully")
  | None => s2
  end.

(** [generated] is the phrase [generateMnemonic()] returns when it is
    called. *)
Definition handleGenerateWallet (generated : string) (s : App) : App :=
  let mnemonic := JS.trim (mnemonicInput s) in
  if truthy mnemonic then
    if negb (validateMnemonic mnemonic)
    then s |> toast (toast_error "Invalid recovery phrase")
    else createFrom mnemonic s
  else createFrom generated s.

Definition handleAddWallet (s : App) : App :=
  if (List.length (mnemonicWords s) =? 0)%nat then
    s |> toast (toast_warning "No mnemonic found. Generate a wallet first")
  else
    let (wallet, notes) :=
      generateWalletFromMnemonic (nth_error (pathTypes s) 0)
                                 (JS.join " " (mnemonicWords s))
                                 (List.length (wallets s)) in
    let s1 := s |> toastAll notes in
    match wallet with
    | Some w =>
        let updatedWallets := wallets s ++ [w] in
        s1 |> setWallets updatedWallets
           |> setItem_wallets updatedWallets
           |> setVisiblePrivateKeys (visiblePrivateKeys s ++ [false])
           |> toast (toast_success "Additional wallet created")
    | None => s1
    end.

(** The operations of the collection, as the interface triggers them.
    [createFirstWallet] types a phrase into the input (or leaves it
    blank) and presses the button. *)
Inductive Op : Type :=
| chooseChain (solana : bool)
| createFirstWallet (input generated : string)
| addWallet
| deleteWallet (index : nat)
| clearAll
| toggleVisibility (index : nat).

Definition step (s : App) (op : Op) : App :=
  match op with
  | chooseChain true => chooseSolana s
  | chooseChain false => chooseEthereum s
  | createFirstWallet input generated =>
      handleGenerateWallet generated (setMnemonicInput input s)
  | addWallet => handleAddWallet s
  | deleteWallet index => handleDeleteWallet index s
  | clearAll => handleClearWallets s
  | toggleVisibility index => togglePrivateKeyVisibility index s
  end.

Definition run (ops : list Op) (s : App) : App := fold_left step ops s.

End Manager.

Definition isDelete (op : Op) : bool :=
  match op with
  | deleteWallet _ => true
  | _ => false
  end.

Definition isChoose (op : Op) : bool :=
  match op with
  | chooseChain _ => true
  | _ => false
  end.

(** The invariant of the specification on the visibility flags. *)
Definition flagsMatch (s : App) : Prop :=
  List.length (visiblePrivateKeys s) = List.length (wallets s).

(** The account index a wallet's path carries: the number of its fifth
    piece, [m/44'/coin'/0'/index']. *)
Definition accountIndex (w : Wallet) : option Z :=
  match JS.split "/" (path w) with
  | [_; _; _; _; a] => JS.parseInt (JS.dropLast a)
  | _ => None
  end.

(** Every wallet sits at the position its account index names. *)
Definition indexed (ws : list Wallet) : Prop :=
  forall k w, nth_error ws k = Some w -> accountIndex w = Some (Z.of_nat k).

(** The reference the specification gives for the simplified derivation:
    hash [0x00 ‖ currentSeed ‖ index] with the hardened bit set in the
    four big-endian bytes of the index, keep the first 32 bytes. *)
Definition hardenedIndex (i : Z) : Buf.t := Buf.be 4 (Z.lor i 0x80000000).

Definition simplifiedStep (currentSeed : Buf.t) (i : Z) : Buf.t :=
  firstn 32 (nacl_hash ([x00] ++ currentSeed ++ hardenedIndex i)).

Definition simplifiedDerivation (seed : Buf.t) (indices : list Z) : Buf.t :=
  fold_left simplifiedStep indices seed.

(** A well-formed segment, in the words of the specification: it carries
    the hardened marker and is parseable as a non-negative integer. *)
Definition wellFormedSegment (segment : string) : bool :=
  JS.endsWith segment "'" &&
  match JS.parseInt (JS.dropLast segment) with
  | Some n => 0 <=? n
  | None => false
  end.

Definition malformed (path : string) : bool :=
  negb (forallb wellFormedSegment (tl (JS.split "/" path))).

(** A segment the custom deriver gets through: not marked, or marked with
    a text that is not a number, or marked with a number whose sum with
    the hardened offset fits 32 bits. *)
Definition passes (segment : string) : bool :=
  if JS.endsWith segment "'" then
    match JS.parseInt (JS.dropLast segment) with
    | None => true
    | Some n => (- 0x80000000 <=? n) && (n <? 0x80000000)
    end
  else true.

(** No piece after the first carries the hardened marker. *)
Definition unhardened (path : string) : bool :=
  forallb (fun segment => negb (JS.endsWith segment "'")) (tl (JS.split "/" path)).

(* ------------------------------------------------------------------ *)
(** ** What the component renders, and the clicks it answers *)

Definition setShowMnemonic (v : bool) (s : App) : App :=
  {| mnemonicWords := mnemonicWords s; pathTypes := pathTypes s; wallets := wallets s;
     showMnemonic := v; mnemonicInput := mnemonicInput s;
     visiblePrivateKeys := visiblePrivateKeys s; gridView := gridView s;
     localStorage := localStorage s; toasts := toasts s |}.

Definition setGridView (v : bool) (s : App) : App :=
  {| mnemonicWords := mnemonicWords s; pathTypes := pathTypes s; wallets := wallets s;
     showMnemonic := showMnemonic s; mnemonicInput := mnemonicInput s;
     visiblePrivateKeys := visiblePrivateKeys s; gridView := v;
     localStorage := localStorage s; toasts := toasts s |}.

(** [visiblePrivateKeys[index]] as a condition: a missing flag is
    [undefined], which is falsy. *)
Definition keyVisible (s : App) (index : nat) : bool :=
  match nth_error (visiblePrivateKeys s) index with
  | Some true => true
  | _ => false
  end.

(** The text in the place of a private key: the key, or as many bullets
    as [Math.min(40, privateKey.length)]. *)
Inductive KeyText : Type :=
| Revealed (text : string)
| Masked (bullets : nat).

(** [pathTypeName === "Solana"]: the name table gives ["Solana"] for the
    code ["501"] and for no other. *)
Definition solanaSelected (s : App) : bool :=
  isPathType (nth_error (pathTypes s) 0) "501".

(** One wallet of the list: its number, the two keys as they are shown,
    what a click on the private key hands to [copyToClipboard] (nothing
    while the key is hidden), and the title of the toggle. *)
Record Card : Type := {
  number : nat;
  shownPublicKey : string;
  shownPrivateKey : KeyText;
  privateKeyCopy : option string;
  toggleTitle : string
}.

Definition card (s : App) (wallet : Wallet) (index : nat) : Card :=
  {| number := index + 1;
     shownPublicKey := publicKey wallet;
     shownPrivateKey :=
       if keyVisible s index then Revealed (privateKey wallet)
       else Masked (Nat.min 40 (String.length (privateKey wallet)));
     privateKeyCopy := if keyVisible s index then Some (privateKey wallet) else None;
     toggleTitle :=
       if keyVisible s index then "Hide private key" else "Show private key" |}.

Record PhraseForm : Type := { inputValue : string; buttonLabel : string }.

Record WalletList : Type := {
  solanaSign : bool;
  count : nat;
  gridToggle : bool;
  cards : list Card
}.

(** The parts of the page that depend on the state: the chain chooser,
    the phrase form, the phrase panel (with the numbered words when it is
    unfolded) and the wallet list.  Left out, as they bear on no handler:
    the chain name printed in the heading of the list, the chain sign in
    the heading of the form, and the choice between grid and list. *)
Record View : Type := {
  chainChooser : bool;
  phraseForm : option PhraseForm;
  phrasePanel : option (option (list (nat * string)));
  walletList : option WalletList
}.

Definition render (s : App) : View :=
  {| chainChooser :=
       (List.length (wallets s) =? 0)%nat && (List.length (pathTypes s) =? 0)%nat;
     phraseForm :=
       if (List.length (wallets s) =? 0)%nat && (0 <? List.length (pathTypes s))%nat
       then Some {| inputValue := mnemonicInput s;
                    buttonLabel := if truthy (mnemonicInput s)
                                   then "Import Wallet" else "Generate Wallet" |}
       else None;
     phrasePanel :=
       if (0 <? List.length (mnemonicWords s))%nat && (0 <? List.length (wallets s))%nat
       then Some (if showMnemonic s
                  then Some (mapIndex (fun word index => ((index + 1)%nat, word))
                                      (mnemonicWords s))
                  else None)
       else None;
     walletList :=
       if (0 <? List.length (wallets s))%nat
       then Some {| solanaSign := solanaSelected s;
                    count := List.length (wallets s);
                    gridToggle := (1 <? List.length (wallets s))%nat;
                    cards := mapIndex (card s) (wallets s) |}
       else None |}.

Definition shownCards (s : App) : list Card :=
  match walletList (render s) with
  | Some l => cards l
  | None => []
  end.

(** [copyToClipboard(content)]: the clipboard is outside the component;
    [written] tells whether the write succeeds, and the notification that
    follows it is emitted at the click. *)
Definition copyToClipboard (written : bool) (s : App) : App :=
  s |> toast (if written then toast_success "Copied to clipboard"
              else toast_error "Failed to copy").

(** What the user does: every [onClick] and [onChange] of the page.
    [confirmed] is the answer to [window.confirm]. *)
Inductive Event : Type :=
| clickSolana
| clickEthereum
| typePhrase (text : string)
| clickGenerate (generated : string)
| clickPhraseHeader
| clickCopyPhrase (written : bool)
| clickGridToggle
| clickAddWallet
| clickClearAll (confirmed : bool)
| clickDelete (index : nat) (confirmed : bool)
| clickCopyPublicKey (index : nat) (written : bool)
| clickCopyPrivateKey (index : nat) (written : bool)
| clickToggleKey (index : nat).

Definition isSome {A : Type} (o : option A) : bool :=
  match o with
  | Some _ => true
  | None => false
  end.

(** An event can happen when the element it is attached to is rendered. *)
Definition offered (s : App) (e : Event) : bool :=
  match e with
  | clickSolana | clickEthereum => chainChooser (render s)
  | typePhrase _ | clickGenerate _ => isSome (phraseForm (render s))
  | clickPhraseHeader => isSome (phrasePanel (render s))
  | clickCopyPhrase _ =>
      match phrasePanel (render s) with
      | Some (Some _) => true
      | _ => false
      end
  | clickGridToggle =>
      match walletList (render s) with
      | Some l => gridToggle l
      | None => false
      end
  | clickAddWallet | clickClearAll _ => isSome (walletList (render s))
  | clickDelete index _ | clickCopyPublicKey index _
  | clickCopyPrivateKey index _ | clickToggleKey index =>
      (index <? List.length (shownCards s))%nat
  end.

Section Interface.

Context {pkg : Packages}.

Definition handle (s : App) (e : Event) : App :=
  match e with
  | clickSolana => chooseSolana s
  | clickEthereum => chooseEthereum s
  | typePhrase text => setMnemonicInput text s
  | clickGenerate generated => handleGenerateWallet generated s
  | clickPhraseHeader => setShowMnemonic (negb (showMnemonic s)) s
  | clickCopyPhrase written => copyToClipboard written s
  | clickGridToggle => setGridView (negb (gridView s)) s
  | clickAddWallet => handleAddWallet s
  | clickClearAll confirmed => if confirmed then handleClearWallets s else s
  | clickDelete index confirmed => if confirmed then handleDeleteWallet index s else s
  | clickCopyPublicKey index written => copyToClipboard written s
  | clickCopyPrivateKey index written =>
      if keyVisible s index then copyToClipboard written s else s
  | clickToggleKey index => togglePrivateKeyVisibility index s
  end.

(** A session: the events in turn, each on the page as it is then; an
    event whose element is not on the page does not happen. *)
Definition interact (events : list Event) (s : App) : App :=
  fold_left (fun s e => if offered s e then handle s e else s) events s.

End Interface.

(** The store a state would be restored from: its wallets, its phrase
    and its chain selection, as [JSON.stringify] writes them. *)
Definition snapshot (s : App) : Storage :=
  {| key_wallets := Some (Json (wallets s));
     key_mnemonics := Some (Json (mnemonicWords s));
     key_paths := Some (Json (pathTypes s)) |}.

(* ------------------------------------------------------------------ *)
(** ** Concrete runs *)

(** A stand-in for the packages, to run the handlers on concrete inputs.
    It has the shapes of the real ones (a 64-byte seed per phrase, a key
    pair for a 32-byte seed only, a phrase refused when its word count is
    none of BIP39's) and none of their cryptography.  The theorems about
    the handlers hold for every implementation; the stand-in only
    supplies the runs of the examples. *)
Definition standIn : Packages := {|
  validateMnemonic := fun phrase =>
    existsb (Nat.eqb (List.length (JS.split " " phrase))) [12; 15; 18; 21; 24]%nat;
  mnemonicToSeedSync := fun phrase => nacl_hash (bytes_of_string phrase);
  sign_keyPair_fromSeed := fun seed =>
    if (List.length seed =? 32)%nat
    then Ok {| kp_publicKey := firstn 32 (nacl_hash seed);
               kp_secretKey := seed ++ firstn 32 (nacl_hash seed) |}
    else Throw "bad seed size";
  Keypair_fromSecretKey := fun secretKey =>
    if (List.length secretKey =? 64)%nat
    then Ok (skipn 32 secretKey)
    else Throw "bad secret key size";
  bs58_encode := Hex.encode;
  ethers_Wallet_address := fun privateKey =>
    Ok ("0x" ++ Hex.encode (firstn 20 (nacl_hash (bytes_of_string privateKey))))%string
|}.

Definition scenarioPhrase : string :=
  "abandon abandon abandon abandon abandon abandon abandon abandon abandon abandon abandon about".

(** A run from the initial state over an empty store: Solana is chosen,
    the first wallet is created with the input left blank, the generated
    phrase being that of the scenario; then come the operations [more]. *)
Definition solanaRun (more : list Op) : App :=
  run (pkg := standIn)
      ([chooseChain true; createFirstWallet "" scenarioPhrase] ++ more)
      (initial emptyStorage).

(** A session on the stand-in: Solana is chosen and the first wallet
    generated from a blank input; then come the events [more]. *)
Definition solanaSession (more : list Event) : App :=
  interact (pkg := standIn)
           ([clickSolana; clickGenerate scenarioPhrase] ++ more)
           (initial emptyStorage).

(** A store whose ["paths"] entry names no supported chain. *)
Definition unknownChainStore : Storage :=
  {| key_wallets := Some (Json []);
     key_mnemonics := Some (Json []);
     key_paths := Some (Json ["1"%string]) |}.

(** A store whose ["wallets"] and ["mnemonics"] entries parse and whose
    ["paths"] entry does not. *)
Definition tornStore : Storage :=
  {| key_wallets :=
       Some (Json [ {| publicKey := "an address";
                       privateKey := "a private key";
                       mnemonic := scenarioPhrase;
                       path := "m/44'/60'/0'/0'" |} ]);
     key_mnemonics := Some (Json (JS.split " " scenarioPhrase));
     key_paths := Some Malformed |}.

(** The pieces of a path the custom deriver hashes: those after the first
    that end with the hardened marker. *)
Definition markedSegments (path : string) : list string :=
  filter (fun segment => JS.endsWith segment "'") (tl (JS.split "/" path)).


(** One of the stored texts is there and fails to parse. *)
Definition unparsable (store : Storage) : bool :=
  match key_wallets store, key_mnemonics store, key_paths store with
  | Some Malformed, _, _ | _, Some Malformed, _ | _, _, Some Malformed => true
  | _, _, _ => false
  end.

(** The three texts are there and not empty. *)
Definition allPresent (store : Storage) : bool :=
  present (key_wallets store) && present (key_mnemonics store)
  && present (key_paths store).

(** What holds of a collection with wallets when its store, its phrase
    and its wallets agree: the store is the snapshot of the state, there
    is a phrase, and every wallet carries it. *)
Definition settled (s : App) : Prop :=
  wallets s <> [] ->
  localStorage s = snapshot s
  /\ mnemonicWords s <> []
  /\ forall w, In w (wallets s) -> mnemonic w = JS.join " " (mnemonicWords s).

(* ------------------------------------------------------------------ *)
(** * Properties *)

(** ** The primitives on known values *)

Example sha512_abc :
  Hex.encode (nacl_hash (bytes_of_string "abc")) =
  "ddaf35a193617abacc417349ae20413112e6fa4e89a97ea20a9eeee64b55d39a2192992a274fc1a836ba3c23a3feebbd454d4423643ce80e2a9ac94fa54ca49f"%string.
Proof. vm_compute. reflexivity. Qed.

Example sha512_empty :
  Hex.encode (nacl_hash []) =
  "cf83e1357eefb8bdf1542850d66d8007d620e4050b5715dc83f4a921d36ce9ce47d0d13c5d85f2b0ff8318d2877eec2f63b931bd47417a81a538327af927da3e"%string.
Proof. vm_compute. reflexivity. Qed.

Example split_path :
  JS.split "/" "m/44'/501'/0'/7'" = ["m"; "44'"; "501'"; "0'"; "7'"]%string.
Proof. reflexivity. Qed.

Example split_empty : JS.split "/" "" = [""%string].
Proof. reflexivity. Qed.

Example trim_both : JS.trim "  a b  " = "a b"%string.
Proof. reflexivity. Qed.

Example parseInt_samples :
  map JS.parseInt ["44"; "0"; "undefined"; ""; "12px"; "-5"; " 7"; "0x1f"; "0x"]%string
  = [Some 44; Some 0; None; None; Some 12; Some (-5); Some 7; Some 31; None].
Proof. reflexivity. Qed.

Example ofZ_samples :
  map JS.ofZ [0; 7; 9; 10; 99; 100; 501; 1024; 2147483648]
  = ["0"; "7"; "9"; "10"; "99"; "100"; "501"; "1024"; "2147483648"]%string.
Proof. vm_compute. reflexivity. Qed.

Example slip10_master :
  let k := HDKey.getMasterKeyFromSeed "000102030405060708090a0b0c0d0e0f" in
  Hex.encode (HDKey.key k) = "2b4be7f19ee27bbf30c667b642d5f4aa69fd169872f8fc3059c08ebae2eb19e7"%string
  /\ Hex.encode (HDKey.chainCode k) = "90046a93de5380a72b5e45010748567d5ea02bbf6522f979e05c0d8d8ca9fffb"%string.
Proof. vm_compute. split; reflexivity. Qed.

Example slip10_child :
  HDKey.derivePath "m/0'" "000102030405060708090a0b0c0d0e0f"
  = Ok (Hex.decode "68e0fe46dfb67e368c75379acec591dad19df3cde26e63b93a8e704f1dade7a3").
Proof. vm_compute. reflexivity. Qed.

Example custom_scenario :
  derivePath "m/44'/501'/0'/0'" scenarioSeed
  = Ok (Hex.decode "8acb1c51ac7aabe1ed05808744ccfab2dcbf1b42f5b1f40bde2a7024e0b0936c").
Proof. vm_compute. reflexivity. Qed.

Example package_scenario :
  HDKey.derivePath "m/44'/501'/0'/0'" scenarioSeed
  = Ok (Hex.decode "37df573b3ac4ad5b522e064e25b63ea16bcbe79d449e81a0268d1047948bb445").
Proof. vm_compute. reflexivity. Qed.

(* ------------------------------------------------------------------ *)
(** ** Hexadecimal text round trip *)

Lemma hex_byte_roundtrip (x : byte) :
  Hex.decode (String (Hex.digit (Buf.toZ x / 16))
                (String (Hex.digit (Buf.toZ x mod 16)) EmptyString)) = [x].
Proof. destruct x; reflexivity. Qed.

Lemma hex_decode_cons (h l : ascii) (r : string) (x : byte) :
  Hex.decode (String h (String l EmptyString)) = [x] ->
  Hex.decode (String h (String l r)) = x :: Hex.decode r.
Proof.
  simpl. destruct (Hex.value h); [|discriminate].
  destruct (Hex.value l); [|discriminate].
  intros E. injection E as ->. reflexivity.
Qed.

(** [Buffer.from(buf.toString("hex"), "hex")] is [buf]. *)
Lemma hex_roundtrip (b : Buf.t) : Hex.decode (Hex.encode b) = b.
Proof.
  induction b as [|x r IH]; [reflexivity|].
  cbn [Hex.encode].
  rewrite (hex_decode_cons _ _ _ x (hex_byte_roundtrip x)).
  now rewrite IH.
Qed.

(* ------------------------------------------------------------------ *)
(** ** Splitting, suffixes *)

Lemma split_nonempty (sep : ascii) (s : string) : JS.split sep s <> [].
Proof.
  induction s as [|c r IH]; cbn [JS.split]; [discriminate|].
  destruct (Ascii.eqb c sep); [discriminate|].
  destruct (JS.split sep r); discriminate.
Qed.

(** A prefix without the separator stays in front of the first piece. *)
Lemma split_app_without (sep : ascii) (s u : string) :
  JS.without sep s = true ->
  JS.split sep (s ++ u) =
  (s ++ hd EmptyString (JS.split sep u))%string :: tl (JS.split sep u).
Proof.
  induction s as [|c r IH]; cbn [JS.without append]; intros W.
  - pose proof (split_nonempty sep u) as N.
    destruct (JS.split sep u); [contradiction|reflexivity].
  - apply andb_prop in W as [C W]. apply negb_true_iff in C.
    cbn [JS.split]. rewrite C, (IH W). reflexivity.
Qed.

Lemma split_without (sep : ascii) (s : string) :
  JS.without sep s = true -> JS.split sep s = [s].
Proof.
  intros W. induction s as [|c r IH]; [reflexivity|].
  cbn [JS.without] in W. apply andb_prop in W as [C W].
  apply negb_true_iff in C. cbn [JS.split]. rewrite C, (IH W). reflexivity.
Qed.

Lemma without_app (sep : ascii) (s u : string) :
  JS.without sep (s ++ u) = JS.without sep s && JS.without sep u.
Proof.
  induction s as [|c r IH]; [reflexivity|].
  cbn [append JS.without]. now rewrite IH, andb_assoc.
Qed.

Lemma endsWith_snoc (s : string) (c : ascii) :
  JS.endsWith (s ++ String c EmptyString) c = true.
Proof.
  induction s as [|a r IH]; cbn [append JS.endsWith].
  - apply Ascii.eqb_refl.
  - destruct (r ++ String c EmptyString)%string eqn:E; [|exact IH].
    destruct r; discriminate.
Qed.

Lemma dropLast_snoc (s : string) (c : ascii) :
  JS.dropLast (s ++ String c EmptyString) = s.
Proof.
  induction s as [|a r IH]; [reflexivity|].
  cbn [append JS.dropLast].
  destruct (r ++ String c EmptyString)%string eqn:E.
  - destruct r; discriminate.
  - now rewrite IH.
Qed.

(* ------------------------------------------------------------------ *)
(** ** Printing a number and reading it back *)

Lemma digit_cases (d : Z) :
  0 <= d < 10 ->
  d = 0 \/ d = 1 \/ d = 2 \/ d = 3 \/ d = 4 \/ d = 5 \/ d = 6 \/ d = 7 \/ d = 8 \/ d = 9.
Proof. lia. Qed.

Ltac each_digit H :=
  apply digit_cases in H;
  repeat (destruct H as [H|H]); subst.

Lemma digit_char (d : Z) :
  0 <= d < 10 ->
  JS.digitIn 10 (Hex.chr (48 + d)) = Some d /\ JS.isDigit (Hex.chr (48 + d)) = true.
Proof. intros H. each_digit H; split; reflexivity. Qed.

(** A decimal digit is the character of a number from 0 to 9. *)
Lemma isDigit_char (c : ascii) :
  JS.isDigit c = true -> exists d, 0 <= d < 10 /\ c = Hex.chr (48 + d).
Proof.
  unfold JS.isDigit, JS.code, Hex.code. intros H.
  apply andb_prop in H as [L U]. apply Z.leb_le in L, U.
  exists (Z.of_N (N_of_ascii c) - 48). split; [lia|].
  unfold Hex.chr. replace (48 + (Z.of_N (N_of_ascii c) - 48)) with (Z.of_N (N_of_ascii c)) by lia.
  now rewrite N2Z.id, ascii_N_embedding.
Qed.

Lemma decimal_allDigits (fuel : nat) (n : Z) (acc : string) :
  JS.allDigits acc = true -> JS.allDigits (JS.decimal fuel n acc) = true.
Proof.
  revert n acc. induction fuel as [|f IH]; intros n acc A.
  - cbn [JS.decimal JS.allDigits].
    destruct (digit_char (n mod 10)) as [_ ->]; [apply Z.mod_pos_bound; lia|exact A].
  - cbn [JS.decimal].
    assert (A' : JS.allDigits (String (Hex.chr (48 + n mod 10)) acc) = true).
    { cbn [JS.allDigits].
      destruct (digit_char (n mod 10)) as [_ ->]; [apply Z.mod_pos_bound; lia|exact A]. }
    destruct (n <? 10); [exact A'|now apply IH].
Qed.

(** Reading the digits printed for [n] amounts to starting from [n]. *)
Lemma digits_decimal (fuel : nat) (n : Z) (acc : string) (seen : bool) :
  0 <= n < 10 ^ Z.of_nat (S fuel) ->
  JS.digits 10 (JS.decimal fuel n acc) seen 0 = JS.digits 10 acc true n.
Proof.
  revert n acc seen. induction fuel as [|f IH]; intros n acc seen B.
  - change (10 ^ Z.of_nat 1) with 10 in B.
    cbn [JS.decimal JS.digits]. rewrite Z.mod_small by lia.
    destruct (digit_char n B) as [-> _]. f_equal.
  - cbn [JS.decimal]. destruct (n <? 10) eqn:L.
    + apply Z.ltb_lt in L. cbn [JS.digits]. rewrite Z.mod_small by lia.
      destruct (digit_char n) as [-> _]; [lia|]. f_equal.
    + apply Z.ltb_ge in L. rewrite IH.
      * cbn [JS.digits].
        destruct (digit_char (n mod 10)) as [-> _]; [apply Z.mod_pos_bound; lia|].
        f_equal. pose proof (Z.div_mod n 10). lia.
      * rewrite Nat2Z.inj_succ, Z.pow_succ_r in B by lia.
        split; [apply Z.div_pos; lia|].
        apply Z.div_lt_upper_bound; lia.
Qed.

Lemma ofZ_fuel (n : Z) : 0 <= n -> n < 10 ^ Z.of_nat (S (Z.to_nat (Z.log2 n))).
Proof.
  intros H. rewrite Nat2Z.inj_succ, Z2Nat.id by apply Z.log2_nonneg.
  destruct (Z.eq_dec n 0) as [->|N]; [reflexivity|].
  pose proof (Z.log2_spec n ltac:(lia)) as [_ U].
  eapply Z.lt_le_trans; [exact U|].
  apply Z.pow_le_mono_l. lia.
Qed.

Lemma ofZ_allDigits (n : Z) : JS.allDigits (JS.ofZ n) = true.
Proof. now apply decimal_allDigits. Qed.

Lemma ofZ_digits (n : Z) : 0 <= n -> JS.digits 10 (JS.ofZ n) false 0 = Some n.
Proof.
  intros H. unfold JS.ofZ. rewrite digits_decimal; [reflexivity|].
  split; [exact H|now apply ofZ_fuel].
Qed.

Lemma allDigits_without_slash (s : string) :
  JS.allDigits s = true -> JS.without "/" s = true.
Proof.
  induction s as [|c r IH]; [reflexivity|].
  cbn [JS.allDigits JS.without]. intros A. apply andb_prop in A as [D A].
  rewrite (IH A), andb_true_r.
  apply isDigit_char in D as (d & B & ->). each_digit B; reflexivity.
Qed.

(** On a text of decimal digits [parseInt] takes none of its detours:
    no white space, no sign, no [0x] prefix. *)
Lemma parseInt_allDigits (s : string) :
  JS.allDigits s = true -> JS.parseInt s = JS.digits 10 s false 0.
Proof.
  assert (M : forall o : option Z, option_map (Z.mul 1) o = o).
  { intros [z|]; [|reflexivity]. cbn [option_map]. now rewrite Z.mul_1_l. }
  destruct s as [|c r]; [reflexivity|].
  cbn [JS.allDigits]. intros A. apply andb_prop in A as [D A].
  apply isDigit_char in D as (d & B & ->).
  destruct r as [|c2 r2].
  - each_digit B; reflexivity.
  - cbn [JS.allDigits] in A. apply andb_prop in A as [D2 _].
    apply isDigit_char in D2 as (d2 & B2 & ->).
    each_digit B; try (unfold JS.parseInt; cbn; apply M).
    each_digit B2; unfold JS.parseInt; cbn; apply M.
Qed.

(** [parseInt(String(n))] is [n]. *)
Lemma parseInt_ofZ (n : Z) : 0 <= n -> JS.parseInt (JS.ofZ n) = Some n.
Proof.
  intros H. rewrite parseInt_allDigits by apply ofZ_allDigits.
  now apply ofZ_digits.
Qed.

(* ------------------------------------------------------------------ *)
(** ** The path deriver *)

(** Adding the hardened offset to an index below 2^31 sets bit 31. *)
Lemma lor_hardened (n : Z) :
  0 <= n < 2 ^ 31 -> Z.lor n 0x80000000 = n + 0x80000000.
Proof.
  intros B. assert (D : Z.land n 0x80000000 = 0).
  { apply Z.bits_inj'. intros k K. rewrite Z.land_spec, Z.bits_0.
    change 0x80000000 with (2 ^ 31). rewrite Z.pow2_bits_eqb by lia.
    destruct (Z.eqb_spec 31 k) as [<-|]; [|apply andb_false_r].
    rewrite andb_true_r. apply Z.testbit_false; [lia|].
    rewrite Z.div_small by lia. reflexivity. }
  rewrite <- Z.lxor_lor by exact D. symmetry. now apply Z.add_nocarry_lxor.
Qed.

Lemma deriveSegment_hardened (cur : Buf.t) (s : string) (n : Z) :
  JS.parseInt s = Some n -> 0 <= n < 2 ^ 31 ->
  deriveSegment cur (s ++ "'") = Ok (simplifiedStep cur n).
Proof.
  intros P B. unfold deriveSegment.
  rewrite endsWith_snoc, dropLast_snoc, P. cbn [option_map].
  unfold writeUInt32BE.
  replace ((n + 0x80000000 >? 0xffffffff) || (n + 0x80000000 <? 0)) with false
    by (symmetry; apply orb_false_iff; split;
        [rewrite Z.gtb_ltb|]; apply Z.ltb_ge; lia).
  unfold simplifiedStep, hardenedIndex, Buf.slice0.
  now rewrite lor_hardened.
Qed.

(** A marked segment that is not a number is hashed with four zero bytes
    for its index. *)
Lemma deriveSegment_not_a_number (cur : Buf.t) (s : string) :
  JS.parseInt s = None ->
  deriveSegment cur (s ++ "'")
  = Ok (firstn 32 (nacl_hash ([x00] ++ cur ++ [x00; x00; x00; x00]))).
Proof.
  intros P. unfold deriveSegment.
  rewrite endsWith_snoc, dropLast_snoc, P. reflexivity.
Qed.

Lemma deriveSegment_plain (cur : Buf.t) (segment : string) :
  JS.endsWith segment "'" = false -> deriveSegment cur segment = Ok cur.
Proof. intros E. unfold deriveSegment. now rewrite E. Qed.

(** The pieces of the path the component builds. *)
Lemma split_pathOf (pathType : option string) (accountIndex : nat) :
  JS.without "/" (pathTypeText pathType) = true ->
  JS.split "/" (pathOf pathType accountIndex) =
  [ "m"; "44'"; pathTypeText pathType ++ "'"; "0'";
    JS.ofZ (Z.of_nat accountIndex) ++ "'" ]%string.
Proof.
  intros W. unfold pathOf.
  change ("m/44'/" ++ pathTypeText pathType ++ "'/0'/" ++ JS.ofZ (Z.of_nat accountIndex) ++ "'")%string
    with ("m" ++ String "/" ("44'" ++ String "/"
            (pathTypeText pathType ++ "'/0'/" ++ JS.ofZ (Z.of_nat accountIndex) ++ "'")))%string.
  rewrite split_app_without by reflexivity. cbn [JS.split Ascii.eqb Bool.eqb hd tl].
  rewrite split_app_without by reflexivity. cbn [JS.split Ascii.eqb Bool.eqb hd tl].
  change ("'/0'/" ++ JS.ofZ (Z.of_nat accountIndex) ++ "'")%string
    with ("'" ++ String "/" ("0'" ++ String "/" (JS.ofZ (Z.of_nat accountIndex) ++ "'")))%string.
  rewrite split_app_without by exact W.
  rewrite split_app_without by reflexivity. cbn [JS.split Ascii.eqb Bool.eqb hd tl].
  rewrite split_app_without by reflexivity. cbn [JS.split Ascii.eqb Bool.eqb hd tl].
  rewrite split_without.
  - reflexivity.
  - rewrite without_app, allDigits_without_slash by apply ofZ_allDigits. reflexivity.
Qed.

(** The loop over the four segments of the template. *)
Lemma deriveSegments_template (seed : Buf.t) (c a : Z) :
  0 <= c < 2 ^ 31 ->
  0 <= a < 2 ^ 31 ->
  deriveSegments ["44'"; JS.ofZ c ++ "'"; "0'"; JS.ofZ a ++ "'"]%string seed
  = Ok (simplifiedDerivation seed [44; c; 0; a]).
Proof.
  intros Bc Ba. cbn [deriveSegments].
  change "44'"%string with ("44" ++ "'")%string.
  rewrite (deriveSegment_hardened seed "44" 44) by (reflexivity || lia).
  rewrite (deriveSegment_hardened _ (JS.ofZ c) c) by (apply parseInt_ofZ || idtac; lia).
  change "0'"%string with ("0" ++ "'")%string.
  rewrite (deriveSegment_hardened _ "0" 0) by (reflexivity || lia).
  rewrite (deriveSegment_hardened _ (JS.ofZ a) a) by (apply parseInt_ofZ || idtac; lia).
  reflexivity.
Qed.

(** C3. The custom [derivePath] is the simplified single-hash derivation:
    on every all-hardened path [m/44'/c'/0'/a'] with indices below 2^31
    and on the hexadecimal text of any seed, it returns what the
    reference definition gives for the raw seed bytes and the indices
    44, c, 0, a. *)
Theorem derivePath_simplified (seed : Buf.t) (c : Z) (a : nat) :
  0 <= c < 2 ^ 31 ->
  Z.of_nat a < 2 ^ 31 ->
  derivePath (pathOf (Some (JS.ofZ c)) a) (Hex.encode seed)
  = Ok (simplifiedDerivation seed [44; c; 0; Z.of_nat a]).
Proof.
  intros Bc Ba. unfold derivePath.
  rewrite hex_roundtrip, split_pathOf
    by (apply allDigits_without_slash, ofZ_allDigits).
  cbn [tl pathTypeText].
  apply deriveSegments_template; lia.
Qed.

Lemma derivePath_simplified_witness :
  derivePath (pathOf (Some (JS.ofZ 501)) 7) (Hex.encode (Hex.decode scenarioSeed))
  = Ok (simplifiedDerivation (Hex.decode scenarioSeed) [44; 501; 0; Z.of_nat 7]).
Proof. apply derivePath_simplified; cbn; lia. Defined.

Lemma deriveSegments_unhardened (segments : list string) (cur : Buf.t) :
  forallb (fun segment => negb (JS.endsWith segment "'")) segments = true ->
  deriveSegments segments cur = Ok cur.
Proof.
  induction segments as [|seg rest IH]; [reflexivity|].
  cbn [forallb deriveSegments]. intros H. apply andb_prop in H as [E H].
  apply negb_true_iff in E. rewrite (deriveSegment_plain _ _ E). now apply IH.
Qed.

(** C10. When no piece of the path after the first carries the hardened
    marker, the custom [derivePath] returns the seed bytes as they came
    in, all of them: unmarked segments are skipped. *)
Theorem derivePath_unhardened (path : string) (seed : Buf.t) :
  unhardened path = true ->
  derivePath path (Hex.encode seed) = Ok seed.
Proof.
  intros U. unfold derivePath. rewrite hex_roundtrip.
  now apply deriveSegments_unhardened.
Qed.

Lemma derivePath_unhardened_witness :
  unhardened "m/44/501/0/0" = true
  /\ derivePath "m/44/501/0/0" (Hex.encode (Hex.decode scenarioSeed))
     = Ok (Hex.decode scenarioSeed)
  /\ List.length (Hex.decode scenarioSeed) = 64%nat.
Proof.
  split; [reflexivity|]. split; [|reflexivity].
  apply derivePath_unhardened. reflexivity.
Defined.

(** C6, as the specification states it, fails on the custom deriver: the
    path the component builds when no chain is selected has a segment that
    is not a number, and a path without markers is malformed too; both
    return key material. *)
Lemma derivePath_accepts_malformed :
  malformed "m/44'/undefined'/0'/0'" = true
  /\ derivePath "m/44'/undefined'/0'/0'" scenarioSeed
     = Ok (Hex.decode "1e26ee7bce7692c2e1dee9cf399081dddb8389a1144b1565e9519b7097dba485")
  /\ malformed "m/44/501/0/0" = true
  /\ derivePath "m/44/501/0/0" scenarioSeed = Ok (Hex.decode scenarioSeed).
Proof. vm_compute. repeat split; reflexivity. Qed.

Lemma deriveSegment_passes (cur : Buf.t) (segment : string) :
  if passes segment
  then exists next, deriveSegment cur segment = Ok next
  else deriveSegment cur segment = Throw "RangeError".
Proof.
  unfold passes, deriveSegment.
  destruct (JS.endsWith segment "'"); [|now exists cur].
  destruct (JS.parseInt (JS.dropLast segment)) as [n|]; cbn [option_map writeUInt32BE].
  - destruct ((- 0x80000000 <=? n) && (n <? 0x80000000)) eqn:R.
    + apply andb_prop in R as [L U]. apply Z.leb_le in L. apply Z.ltb_lt in U.
      replace ((n + 0x80000000 >? 0xffffffff) || (n + 0x80000000 <? 0)) with false
        by (symmetry; apply orb_false_iff; split;
            [rewrite Z.gtb_ltb|]; apply Z.ltb_ge; lia).
      eexists. reflexivity.
    + replace ((n + 0x80000000 >? 0xffffffff) || (n + 0x80000000 <? 0)) with true;
        [reflexivity|].
      symmetry. apply andb_false_iff in R as [L|U].
      * apply Z.leb_gt in L. apply orb_true_iff. right. apply Z.ltb_lt. lia.
      * apply Z.ltb_ge in U. apply orb_true_iff. left.
        rewrite Z.gtb_ltb. apply Z.ltb_lt. lia.
  - eexists. reflexivity.
Qed.

Lemma deriveSegments_passes (segments : list string) (cur : Buf.t) :
  if forallb passes segments
  then exists k, deriveSegments segments cur = Ok k
  else deriveSegments segments cur = Throw "RangeError".
Proof.
  revert cur. induction segments as [|seg rest IH]; intros cur.
  - now exists cur.
  - cbn [forallb deriveSegments].
    pose proof (deriveSegment_passes cur seg) as S.
    destruct (passes seg); cbn [andb].
    + destruct S as [next ->]. apply IH.
    + now rewrite S.
Qed.

(** C6, amended.  The custom deriver has no failure for a malformed path:
    a segment without the hardened marker is skipped and a marked segment
    that is not a number goes through, so such paths return key material.
    It fails, by the range check of the four-byte write, exactly when a
    marked segment is a number outside [-2^31, 2^31). *)
Theorem derivePath_failure (path seed : string) :
  if forallb passes (tl (JS.split "/" path))
  then exists k, derivePath path seed = Ok k
  else derivePath path seed = Throw "RangeError".
Proof. unfold derivePath. apply deriveSegments_passes. Qed.

(** A segment without the marker passes, and so does a marked segment
    that is not a number: what the specification calls malformed is not
    what makes the deriver fail. *)
Lemma passes_unmarked (segment : string) :
  JS.endsWith segment "'" = false -> passes segment = true.
Proof. intros E. unfold passes. now rewrite E. Qed.

Lemma passes_not_a_number (segment : string) :
  JS.parseInt (JS.dropLast segment) = None -> passes segment = true.
Proof. intros E. unfold passes. rewrite E. now destruct (JS.endsWith segment "'"). Qed.

(** C2. For the seed of the specification's scenario and the Solana path
    of account 0, the package's hierarchical derivation and the custom
    repeated-hash derivation both return 32 bytes, and not the same:
    the two functions are not equal. *)
Theorem derivations_differ :
  (exists k1 k2,
      HDKey.derivePath "m/44'/501'/0'/0'" scenarioSeed = Ok k1
      /\ derivePath "m/44'/501'/0'/0'" scenarioSeed = Ok k2
      /\ List.length k1 = 32%nat /\ List.length k2 = 32%nat
      /\ k1 <> k2)
  /\ HDKey.derivePath <> derivePath.
Proof.
  assert (D : HDKey.derivePath "m/44'/501'/0'/0'" scenarioSeed
              <> derivePath "m/44'/501'/0'/0'" scenarioSeed).
  { rewrite package_scenario, custom_scenario. vm_compute. discriminate. }
  split.
  - eexists. eexists.
    split; [apply package_scenario|]. split; [apply custom_scenario|].
    split; [reflexivity|]. split; [reflexivity|].
    vm_compute. discriminate.
  - intros E. apply D. now rewrite E.
Qed.

(* ------------------------------------------------------------------ *)
(** ** Filtering and mapping by position *)

Lemma filterFrom_all {A : Type} (p : nat -> bool) (l : list A) (i : nat) :
  (forall j, (i <= j)%nat -> p j = true) -> filterFrom p i l = l.
Proof.
  revert i. induction l as [|x r IH]; intros i H; [reflexivity|].
  cbn [filterFrom]. rewrite (H i) by lia. f_equal. apply IH. intros j L. apply H. lia.
Qed.

(** [l.filter((_, i) => i !== index)] takes out the element at [index]
    and nothing else. *)
Lemma filterFrom_remove {A : Type} (index : nat) (l : list A) (i : nat) :
  filterFrom (fun j => negb (j =? i + index)%nat) i l
  = firstn index l ++ skipn (S index) l.
Proof.
  revert i index. induction l as [|x r IH]; intros i index.
  - now destruct index.
  - cbn [filterFrom]. destruct index as [|n].
    + rewrite Nat.add_0_r, Nat.eqb_refl. cbn [negb firstn skipn app].
      apply filterFrom_all. intros j L.
      apply negb_true_iff, Nat.eqb_neq. lia.
    + replace (i =? i + S n)%nat with false by (symmetry; apply Nat.eqb_neq; lia).
      cbn [negb firstn skipn app]. f_equal.
      replace (i + S n)%nat with (S i + n)%nat by lia. apply IH.
Qed.

Lemma filterIndex_remove {A : Type} (index : nat) (l : list A) :
  filterIndex (fun j => negb (j =? index)%nat) l
  = firstn index l ++ skipn (S index) l.
Proof. exact (filterFrom_remove index l 0). Qed.


Lemma mapFrom_length {A B : Type} (f : A -> nat -> B) (l : list A) (i : nat) :
  List.length (mapFrom f i l) = List.length l.
Proof.
  revert i. induction l as [|x r IH]; intros i; [reflexivity|].
  cbn [mapFrom List.length]. now rewrite IH.
Qed.

(* ------------------------------------------------------------------ *)
(** ** The wallet collection *)

Section ManagerProperties.

Context {pkg : Packages}.

(** A wallet comes out only for one of the two chains, carries the path
    of the template and the phrase it was derived from, and comes with
    no notification. *)
Lemma generated_wallet (pathType : option string) (phrase : string) (n : nat)
      (w : Wallet) (notes : list Toast) :
  generateWalletFromMnemonic pathType phrase n = (Some w, notes) ->
  (pathType = Some "501"%string \/ pathType = Some "60"%string)
  /\ path w = pathOf pathType n /\ mnemonic w = phrase /\ notes = [].
Proof.
  unfold generateWalletFromMnemonic.
  destruct (derivePath _ _); [|discriminate].
  destruct (isPathType pathType "501") eqn:S.
  - destruct (sign_keyPair_fromSeed a); [|discriminate].
    destruct (Keypair_fromSecretKey _); [|discriminate].
    intros E. injection E as <- <-.
    destruct pathType as [t|]; [|discriminate].
    apply String.eqb_eq in S. subst. auto.
  - destruct (isPathType pathType "60") eqn:E60; [|discriminate].
    destruct (ethers_Wallet_address _); [|discriminate].
    intros E. injection E as <- <-.
    destruct pathType as [t|]; [|discriminate].
    apply String.eqb_eq in E60. subst. auto.
Qed.

(** Without a supported chain there is no wallet. *)
Lemma no_wallet_without_chain (pathType : option string) (phrase : string) (n : nat) :
  isPathType pathType "501" = false ->
  isPathType pathType "60" = false ->
  fst (generateWalletFromMnemonic pathType phrase n) = None.
Proof.
  intros S E. unfold generateWalletFromMnemonic.
  destruct (derivePath _ _); [|reflexivity]. now rewrite S, E.
Qed.

(** The account index of a generated wallet is the count it was given. *)
Lemma generated_index (pathType : option string) (phrase : string) (n : nat)
      (w : Wallet) (notes : list Toast) :
  generateWalletFromMnemonic pathType phrase n = (Some w, notes) ->
  accountIndex w = Some (Z.of_nat n).
Proof.
  intros G. apply generated_wallet in G as (C & P & _).
  unfold accountIndex. rewrite P, split_pathOf.
  - rewrite dropLast_snoc. apply parseInt_ofZ. lia.
  - destruct C as [-> | ->]; reflexivity.
Qed.

(** What [createFrom] does to the wallets and the flags. *)
Lemma createFrom_wallets (phrase : string) (s : App) :
  (wallets (createFrom phrase s) = wallets s
   /\ visiblePrivateKeys (createFrom phrase s) = visiblePrivateKeys s
   /\ localStorage (createFrom phrase s) = localStorage s)
  \/ exists w,
      wallets (createFrom phrase s) = wallets s ++ [w]
      /\ visiblePrivateKeys (createFrom phrase s) = visiblePrivateKeys s ++ [false]
      /\ accountIndex w = Some (Z.of_nat (List.length (wallets s))).
Proof.
  unfold createFrom.
  destruct (generateWalletFromMnemonic _ _ _) as [[w|] notes] eqn:G.
  - right. exists w. repeat split. eapply generated_index, G.
  - left. repeat split.
Qed.

Lemma handleGenerateWallet_wallets (generated : string) (s : App) :
  (wallets (handleGenerateWallet generated s) = wallets s
   /\ visiblePrivateKeys (handleGenerateWallet generated s) = visiblePrivateKeys s
   /\ localStorage (handleGenerateWallet generated s) = localStorage s)
  \/ exists w,
      wallets (handleGenerateWallet generated s) = wallets s ++ [w]
      /\ visiblePrivateKeys (handleGenerateWallet generated s)
         = visiblePrivateKeys s ++ [false]
      /\ accountIndex w = Some (Z.of_nat (List.length (wallets s))).
Proof.
  unfold handleGenerateWallet.
  destruct (truthy _); [|apply createFrom_wallets].
  destruct (negb _); [|apply createFrom_wallets].
  left. repeat split.
Qed.

Lemma handleAddWallet_wallets (s : App) :
  (wallets (handleAddWallet s) = wallets s
   /\ visiblePrivateKeys (handleAddWallet s) = visiblePrivateKeys s
   /\ localStorage (handleAddWallet s) = localStorage s
   /\ mnemonicWords (handleAddWallet s) = mnemonicWords s)
  \/ exists w,
      wallets (handleAddWallet s) = wallets s ++ [w]
      /\ visiblePrivateKeys (handleAddWallet s) = visiblePrivateKeys s ++ [false]
      /\ accountIndex w = Some (Z.of_nat (List.length (wallets s))).
Proof.
  unfold handleAddWallet.
  destruct (_ =? _)%nat; [left; repeat split|].
  destruct (generateWalletFromMnemonic _ _ _) as [[w|] notes] eqn:G.
  - right. exists w. repeat split. eapply generated_index, G.
  - left. repeat split.
Qed.

End ManagerProperties.

(* ------------------------------------------------------------------ *)
(** ** Account indices *)

Lemma indexed_nil : indexed [].
Proof. intros [|k] w E; discriminate. Qed.

Lemma indexed_snoc (ws : list Wallet) (w : Wallet) :
  indexed ws ->
  accountIndex w = Some (Z.of_nat (List.length ws)) ->
  indexed (ws ++ [w]).
Proof.
  intros I A k w' E.
  destruct (Nat.lt_ge_cases k (List.length ws)) as [L|G].
  - rewrite nth_error_app1 in E by exact L. now apply I.
  - rewrite nth_error_app2 in E by exact G.
    destruct (k - List.length ws)%nat as [|j] eqn:D.
    + injection E as <-. rewrite A. do 2 f_equal. lia.
    + destruct j; discriminate.
Qed.

Section AccountIndices.

Context {pkg : Packages}.

(** Every operation but [deleteWallet] keeps the wallets at the
    positions of their indices. *)
Lemma step_indexed (s : App) (op : Op) :
  isDelete op = false -> indexed (wallets s) -> indexed (wallets (step s op)).
Proof.
  intros D I. destruct op as [[|]|input generated| |i| |i]; cbn [step].
  - exact I.
  - exact I.
  - destruct (handleGenerateWallet_wallets generated (setMnemonicInput input s))
      as [(-> & _)|(w & -> & _ & A)]; [exact I|].
    now apply indexed_snoc.
  - destruct (handleAddWallet_wallets s) as [(-> & _)|(w & -> & _ & A)]; [exact I|].
    now apply indexed_snoc.
  - discriminate.
  - apply indexed_nil.
  - exact I.
Qed.

Lemma run_indexed (ops : list Op) (s : App) :
  existsb isDelete ops = false -> indexed (wallets s) -> indexed (wallets (run ops s)).
Proof.
  revert s. induction ops as [|op ops IH]; intros s D I; [exact I|].
  cbn [existsb] in D. apply orb_false_iff in D as [D1 D2].
  cbn [run fold_left]. apply IH; [exact D2|]. now apply step_indexed.
Qed.

(** C1, amended.  In a collection that starts empty and goes through
    any operations but [deleteWallet], a wallet that [addWallet] adds is
    given the current wallet count as its account index, and that index is
    strictly greater than the index of every wallet of the collection. *)
Theorem account_index_is_count (ops : list Op) (s0 : App) (w : Wallet) :
  wallets s0 = [] ->
  existsb isDelete ops = false ->
  wallets (step (run ops s0) addWallet) = wallets (run ops s0) ++ [w] ->
  accountIndex w = Some (Z.of_nat (List.length (wallets (run ops s0))))
  /\ forall w', In w' (wallets (run ops s0)) ->
       exists j, accountIndex w' = Some j
                 /\ j < Z.of_nat (List.length (wallets (run ops s0))).
Proof.
  intros E D A.
  assert (I : indexed (wallets (run ops s0)))
    by (apply run_indexed; [exact D|rewrite E; apply indexed_nil]).
  split.
  - cbn [step] in A.
    destruct (handleAddWallet_wallets (run ops s0)) as [(U & _)|(w0 & U & _ & X)];
      rewrite U in A.
    + apply (f_equal (@List.length Wallet)) in A. rewrite length_app in A.
      cbn in A. lia.
    + apply app_inj_tail in A as [_ <-]. exact X.
  - intros w' M. apply In_nth_error in M as [k K].
    exists (Z.of_nat k). split; [now apply I|].
    apply Nat2Z.inj_lt, nth_error_Some. now rewrite K.
Qed.

(** Whatever the packages, once a wallet other than the last has been
    deleted from a collection whose wallets sit at their indices, the
    wallet that [addWallet] adds carries the index of a wallet that is
    still there. *)
Lemma index_reused_after_delete (s : App) (i : nat) (w : Wallet) :
  indexed (wallets s) ->
  (S i < List.length (wallets s))%nat ->
  wallets (handleAddWallet (handleDeleteWallet i s))
  = wallets (handleDeleteWallet i s) ++ [w] ->
  exists w', In w' (wallets (handleDeleteWallet i s))
             /\ accountIndex w' = accountIndex w.
Proof.
  intros I L A.
  assert (W : wallets (handleDeleteWallet i s)
              = firstn i (wallets s) ++ skipn (S i) (wallets s))
    by apply filterIndex_remove.
  assert (N : List.length (wallets (handleDeleteWallet i s))
              = (List.length (wallets s) - 1)%nat).
  { rewrite W, length_app, length_firstn, length_skipn. lia. }
  destruct (handleAddWallet_wallets (handleDeleteWallet i s))
    as [(U & _)|(w0 & U & _ & X)]; rewrite U in A.
  - apply (f_equal (@List.length Wallet)) in A. rewrite length_app in A.
    cbn in A. lia.
  - apply app_inj_tail in A as [_ <-]. rewrite X, N.
    destruct (nth_error (wallets s) (List.length (wallets s) - 1)) as [w'|] eqn:K.
    + exists w'. split; [|now apply I].
      rewrite W. apply in_or_app. right.
      apply nth_error_In with (n := (List.length (wallets s) - 1 - S i)%nat).
      rewrite nth_error_skipn. rewrite <- K. f_equal. lia.
    + apply nth_error_None in K. lia.
Qed.

End AccountIndices.

Lemma account_index_is_count_witness :
  exists w,
    wallets (step (pkg := standIn) (solanaRun [addWallet]) addWallet)
    = wallets (solanaRun [addWallet]) ++ [w]
    /\ accountIndex w = Some (Z.of_nat (List.length (wallets (solanaRun [addWallet])))).
Proof.
  unfold solanaRun. cbn [app].
  eexists ?[w].
  assert (A : wallets (step (pkg := standIn)
                         (run (pkg := standIn)
                              [chooseChain true; createFirstWallet "" scenarioPhrase;
                               addWallet]
                              (initial emptyStorage))
                         addWallet)
              = wallets (run (pkg := standIn)
                             [chooseChain true; createFirstWallet "" scenarioPhrase;
                              addWallet]
                             (initial emptyStorage)) ++ [?w])
    by (vm_compute; reflexivity).
  split; [exact A|].
  exact (proj1 (account_index_is_count (pkg := standIn)
                  [chooseChain true; createFirstWallet "" scenarioPhrase; addWallet]
                  (initial emptyStorage) _ eq_refl eq_refl A)).
Defined.

(** C1, as the specification states it, fails: three wallets get the
    indices 0, 1, 2; after wallet 1 is deleted two wallets remain, and the
    next wallet is given index 2 again, the index (and so the path and
    the keys) of a wallet still in the collection. *)
Lemma account_index_reused :
  map accountIndex (wallets (solanaRun [addWallet; addWallet]))
  = [Some 0; Some 1; Some 2]
  /\ map accountIndex
        (wallets (solanaRun [addWallet; addWallet; deleteWallet 1; addWallet]))
     = [Some 0; Some 2; Some 2].
Proof. vm_compute. split; reflexivity. Qed.

(* ------------------------------------------------------------------ *)
(** ** Deleting and the chain selection *)




(* ------------------------------------------------------------------ *)
(** ** Failure and atomicity *)

Section Creation.

Context {pkg : Packages}.

(** A derivation that fails leaves the wallets, the flags, the chain
    selection and the store as they were; [addWallet] leaves the phrase
    too. *)
Lemma createFrom_failure (phrase : string) (s : App) :
  fst (generateWalletFromMnemonic (nth_error (pathTypes s) 0) phrase
                                  (List.length (wallets s))) = None ->
  wallets (createFrom phrase s) = wallets s
  /\ visiblePrivateKeys (createFrom phrase s) = visiblePrivateKeys s
  /\ pathTypes (createFrom phrase s) = pathTypes s
  /\ localStorage (createFrom phrase s) = localStorage s
  /\ mnemonicWords (createFrom phrase s) = JS.split " " phrase.
Proof.
  unfold createFrom.
  destruct (generateWalletFromMnemonic _ _ _) as [[w|] notes]; [discriminate|].
  intros _. repeat split.
Qed.

Lemma handleAddWallet_failure (s : App) :
  fst (generateWalletFromMnemonic (nth_error (pathTypes s) 0)
                                  (JS.join " " (mnemonicWords s))
                                  (List.length (wallets s))) = None ->
  wallets (handleAddWallet s) = wallets s
  /\ visiblePrivateKeys (handleAddWallet s) = visiblePrivateKeys s
  /\ pathTypes (handleAddWallet s) = pathTypes s
  /\ localStorage (handleAddWallet s) = localStorage s
  /\ mnemonicWords (handleAddWallet s) = mnemonicWords s.
Proof.
  unfold handleAddWallet. destruct (_ =? _)%nat; [intros _; repeat split|].
  destruct (generateWalletFromMnemonic _ _ _) as [[w|] notes]; [discriminate|].
  intros _. repeat split.
Qed.

(** C5 on the code.  The store names a chain the component does not
    support; the component loads it and shows the phrase input; the
    button is pressed with the input blank.  The derivation fails and
    no wallet is added, the flags and the store are untouched, yet the
    phrase of the collection, empty before, is now the generated one:
    [setMnemonicWords] runs before the derivation, outside the test on
    its result. *)
Theorem failed_creation_replaces_phrase (generated : string) :
  wallets (handleGenerateWallet generated (loadSavedWallets (initial unknownChainStore)))
  = []
  /\ visiblePrivateKeys
       (handleGenerateWallet generated (loadSavedWallets (initial unknownChainStore)))
     = []
  /\ localStorage
       (handleGenerateWallet generated (loadSavedWallets (initial unknownChainStore)))
     = unknownChainStore
  /\ mnemonicWords (loadSavedWallets (initial unknownChainStore)) = []
  /\ mnemonicWords
       (handleGenerateWallet generated (loadSavedWallets (initial unknownChainStore)))
     = JS.split " " generated
  /\ JS.split " " generated <> [].
Proof.
  assert (F : fst (generateWalletFromMnemonic
                     (nth_error (pathTypes (loadSavedWallets (initial unknownChainStore))) 0)
                     generated
                     (List.length (wallets (loadSavedWallets (initial unknownChainStore)))))
              = None)
    by (apply no_wallet_without_chain; reflexivity).
  change (handleGenerateWallet generated (loadSavedWallets (initial unknownChainStore)))
    with (createFrom generated (loadSavedWallets (initial unknownChainStore))).
  destruct (createFrom_failure generated _ F) as (W & V & _ & L & M).
  rewrite W, V, L, M. repeat split. apply split_nonempty.
Qed.

(** C7.  When the input, trimmed, is not blank and does not validate,
    [handleGenerateWallet] reports "Invalid recovery phrase" and returns:
    the state after is the state before with that one notification more,
    so no wallet is added and the store is as it was; no derivation is
    part of the result, which is the same whatever the packages derive. *)
Theorem invalid_phrase_rejected (generated : string) (s : App) :
  truthy (JS.trim (mnemonicInput s)) = true ->
  validateMnemonic (JS.trim (mnemonicInput s)) = false ->
  handleGenerateWallet generated s
  = toast (toast_error "Invalid recovery phrase") s.
Proof.
  intros T V. unfold handleGenerateWallet. now rewrite T, V.
Qed.

(** With no chain selected and no wallet, no operation but the choice
    of a chain brings a wallet or a chain selection. *)
Lemma step_without_chain (s : App) (op : Op) :
  isChoose op = false ->
  pathTypes s = [] /\ wallets s = [] ->
  pathTypes (step s op) = [] /\ wallets (step s op) = [].
Proof.
  intros C [P W]. destruct op as [b|input generated| |i| |i]; cbn [step].
  - discriminate.
  - set (c := setMnemonicInput input s).
    assert (F : forall phrase,
               pathTypes (createFrom phrase c) = [] /\ wallets (createFrom phrase c) = []).
    { intros phrase.
      destruct (createFrom_failure phrase c) as (W' & _ & P' & _).
      - apply no_wallet_without_chain; cbn; rewrite P; reflexivity.
      - rewrite P', W'. now split. }
    unfold handleGenerateWallet.
    destruct (truthy _); [|apply F]. destruct (negb _); [now split|apply F].
  - destruct (handleAddWallet_failure s) as (W' & _ & P' & _).
    + apply no_wallet_without_chain; rewrite P; reflexivity.
    + rewrite P', W'. now split.
  - cbn. rewrite P, W. now split.
  - now split.
  - now split.
Qed.

Lemma run_without_chain (ops : list Op) (s : App) :
  existsb isChoose ops = false ->
  pathTypes s = [] /\ wallets s = [] ->
  pathTypes (run ops s) = [] /\ wallets (run ops s) = [].
Proof.
  revert s. induction ops as [|op ops IH]; intros s C I; [exact I|].
  cbn [existsb] in C. apply orb_false_iff in C as [C1 C2].
  cbn [run fold_left]. apply IH; [exact C2|]. now apply step_without_chain.
Qed.

(** C8.  [clearAll] leaves no wallet, no phrase, no chain selection and
    no flag, and removes the three keys of the store; from there no
    sequence of operations adds a wallet unless a chain is chosen
    again. *)
Theorem clear_resets (s : App) :
  wallets (handleClearWallets s) = []
  /\ mnemonicWords (handleClearWallets s) = []
  /\ pathTypes (handleClearWallets s) = []
  /\ visiblePrivateKeys (handleClearWallets s) = []
  /\ localStorage (handleClearWallets s) = emptyStorage
  /\ (forall key, hasItem (localStorage (handleClearWallets s)) key = false)
  /\ (forall ops,
         existsb isChoose ops = false ->
         wallets (run ops (handleClearWallets s)) = []).
Proof.
  repeat split.
  - intros key. unfold hasItem. cbn.
    now destruct (String.eqb key "wallets"), (String.eqb key "mnemonics"),
                 (String.eqb key "paths").
  - intros ops C. now apply run_without_chain.
Qed.

End Creation.

Lemma invalid_phrase_rejected_witness :
  handleGenerateWallet (pkg := standIn) scenarioPhrase
    (setMnemonicInput "abandon abandon abandon" (chooseEthereum (initial emptyStorage)))
  = toast (toast_error "Invalid recovery phrase")
      (setMnemonicInput "abandon abandon abandon" (chooseEthereum (initial emptyStorage))).
Proof. apply (invalid_phrase_rejected (pkg := standIn)); reflexivity. Defined.

(* ------------------------------------------------------------------ *)
(** ** One visibility flag per wallet *)


Section Flags.

Context {pkg : Packages}.



End Flags.

(** Loading keeps one flag per wallet whenever the ["paths"] entry is not
    a text that fails to parse. *)
Lemma load_flagsMatch (s : App) :
  key_paths (localStorage s) <> Some Malformed ->
  flagsMatch s -> flagsMatch (loadSavedWallets s).
Proof.
  unfold flagsMatch, loadSavedWallets. intros P I.
  destruct (key_wallets (localStorage s)) as [[ws| |]|];
    destruct (key_mnemonics (localStorage s)) as [[ms| |]|];
    destruct (key_paths (localStorage s)) as [[ps| |]|];
    cbn; try exact I; try (now rewrite length_map); contradiction.
Qed.

(** C9 on the code.  The store holds one wallet and a phrase that parse,
    and a ["paths"] text that does not.  The effect sets the phrase and
    the wallets, then [JSON.parse] throws on the third text, before the
    flags are set; the exception is caught and reported, and the state is
    left with one wallet and no flag. *)
Theorem load_breaks_flags :
  List.length (wallets (loadSavedWallets (initial tornStore))) = 1%nat
  /\ List.length (visiblePrivateKeys (loadSavedWallets (initial tornStore))) = 0%nat
  /\ toasts (loadSavedWallets (initial tornStore))
     = [toast_error "Failed to load saved wallets"]
  /\ ~ flagsMatch (loadSavedWallets (initial tornStore)).
Proof. repeat split. discriminate. Qed.

(* ------------------------------------------------------------------ *)
(** ** Further properties of the collection *)

(** [deleteWallet(index)] removes the wallet at [index] and no other: the
    wallets before and after it stay, in their order and as they were, in
    the state and in the store; at a valid index the collection is one
    wallet shorter. *)
Theorem delete_removes_one (index : nat) (s : App) :
  wallets (handleDeleteWallet index s)
  = firstn index (wallets s) ++ skipn (S index) (wallets s)
  /\ key_wallets (localStorage (handleDeleteWallet index s))
     = Some (Json (firstn index (wallets s) ++ skipn (S index) (wallets s)))
  /\ ((index < List.length (wallets s))%nat ->
      S (List.length (wallets (handleDeleteWallet index s))) = List.length (wallets s)).
Proof.
  assert (W : wallets (handleDeleteWallet index s)
              = firstn index (wallets s) ++ skipn (S index) (wallets s))
    by apply filterIndex_remove.
  split; [exact W|]. split.
  - cbn. now rewrite filterIndex_remove.
  - intros L. rewrite W, length_app, length_firstn, length_skipn. lia.
Qed.

Section Further.

Context {pkg : Packages}.


(** [addWallet] before any phrase is established warns and changes
    nothing else. *)
Theorem add_requires_phrase (s : App) :
  mnemonicWords s = [] ->
  handleAddWallet s
  = toast (toast_warning "No mnemonic found. Generate a wallet first") s.
Proof. intros E. unfold handleAddWallet. now rewrite E. Qed.

(** An [addWallet] that adds no wallet leaves the phrase, the chain
    selection, the flags and the store as they were. *)
Theorem add_without_wallet (s : App) :
  wallets (handleAddWallet s) = wallets s ->
  mnemonicWords (handleAddWallet s) = mnemonicWords s
  /\ pathTypes (handleAddWallet s) = pathTypes s
  /\ visiblePrivateKeys (handleAddWallet s) = visiblePrivateKeys s
  /\ localStorage (handleAddWallet s) = localStorage s.
Proof.
  unfold handleAddWallet. destruct (_ =? _)%nat; [intros _; repeat split|].
  destruct (generateWalletFromMnemonic _ _ _) as [[w|] notes]; [|intros _; repeat split].
  cbn. intros E. apply (f_equal (@List.length Wallet)) in E.
  rewrite length_app in E. cbn in E. lia.
Qed.

(** The Ethereum branch: the private key of a wallet of account [n] is
    [0x] and the lowercase hexadecimal text of the simplified derivation
    of the phrase's seed along 44, 60, 0, n. *)
Theorem ethereum_private_key (phrase : string) (n : nat) (w : Wallet) (notes : list Toast) :
  Z.of_nat n < 2 ^ 31 ->
  generateWalletFromMnemonic (Some "60"%string) phrase n = (Some w, notes) ->
  privateKey w
  = ("0x" ++ Hex.encode (simplifiedDerivation (mnemonicToSeedSync phrase)
                           [44; 60; 0; Z.of_nat n]))%string.
Proof.
  intros B. unfold generateWalletFromMnemonic.
  unfold derivePath.
  rewrite hex_roundtrip, split_pathOf by reflexivity.
  cbn [tl pathTypeText]. change "60"%string with (JS.ofZ 60) at 1.
  rewrite deriveSegments_template by lia.
  change (isPathType (Some "60"%string) "501") with false.
  change (isPathType (Some "60"%string) "60") with true. cbn [negb].
  generalize (simplifiedDerivation (mnemonicToSeedSync phrase) [44; 60; 0; Z.of_nat n]).
  intros k. destruct (ethers_Wallet_address _); [|discriminate].
  intros E. injection E as <- _. reflexivity.
Qed.

End Further.

Lemma add_requires_phrase_witness :
  handleAddWallet (pkg := standIn) (chooseSolana (initial emptyStorage))
  = toast (toast_warning "No mnemonic found. Generate a wallet first")
      (chooseSolana (initial emptyStorage)).
Proof. apply (add_requires_phrase (pkg := standIn)). reflexivity. Defined.

Lemma add_without_wallet_witness :
  mnemonicWords (handleAddWallet (pkg := standIn) (solanaRun [addWallet; deleteWallet 0]))
  = JS.split " " scenarioPhrase
  /\ List.length (wallets (solanaRun [addWallet; deleteWallet 0])) = 1%nat.
Proof.
  split; [|vm_compute; reflexivity].
  rewrite (proj1 (add_without_wallet (pkg := standIn)
                    (solanaRun [addWallet; deleteWallet 0])
                    ltac:(vm_compute; reflexivity))).
  vm_compute. reflexivity.
Defined.

Lemma ethereum_private_key_witness :
  exists w notes,
    generateWalletFromMnemonic (pkg := standIn) (Some "60"%string) scenarioPhrase 3
    = (Some w, notes)
    /\ privateKey w
       = ("0x" ++ Hex.encode
                    (simplifiedDerivation
                       (mnemonicToSeedSync (Packages := standIn) scenarioPhrase)
                       [44; 60; 0; Z.of_nat 3]))%string.
Proof.
  eexists ?[w], ?[notes].
  assert (G : generateWalletFromMnemonic (pkg := standIn) (Some "60"%string) scenarioPhrase 3
              = (Some ?w, ?notes))
    by (vm_compute; reflexivity).
  split; [exact G|].
  exact (ethereum_private_key (pkg := standIn) scenarioPhrase 3 _ _ eq_refl G).
Defined.

Lemma index_reused_after_delete_witness :
  exists w w',
    wallets (handleAddWallet (pkg := standIn)
               (handleDeleteWallet 1 (solanaRun [addWallet; addWallet])))
    = wallets (handleDeleteWallet 1 (solanaRun [addWallet; addWallet])) ++ [w]
    /\ In w' (wallets (handleDeleteWallet 1 (solanaRun [addWallet; addWallet])))
    /\ accountIndex w' = accountIndex w.
Proof.
  eexists ?[w].
  assert (A : wallets (handleAddWallet (pkg := standIn)
                         (handleDeleteWallet 1 (solanaRun [addWallet; addWallet])))
              = wallets (handleDeleteWallet 1 (solanaRun [addWallet; addWallet])) ++ [?w])
    by (vm_compute; reflexivity).
  assert (I : indexed (wallets (solanaRun [addWallet; addWallet])))
    by (apply (run_indexed (pkg := standIn)); [reflexivity|apply indexed_nil]).
  assert (L : (2 < List.length (wallets (solanaRun [addWallet; addWallet])))%nat)
    by (vm_compute; lia).
  destruct (index_reused_after_delete (pkg := standIn) _ 1 _ I L A) as (w' & M & E).
  exists w'. split; [exact A|]. split; [exact M|exact E].
Defined.

(* ------------------------------------------------------------------ *)
(** ** More on the path deriver *)

Lemma split_app_sep (sep : ascii) (s t : string) :
  JS.split sep (s ++ String sep t) = JS.split sep s ++ JS.split sep t.
Proof.
  induction s as [|c r IH]; cbn [append JS.split].
  - now rewrite Ascii.eqb_refl.
  - destruct (Ascii.eqb c sep); rewrite IH; [reflexivity|].
    pose proof (split_nonempty sep r) as N.
    destruct (JS.split sep r); [contradiction|reflexivity].
Qed.

Lemma tl_split_app_sep (sep : ascii) (s t : string) :
  tl (JS.split sep (s ++ String sep t)) = tl (JS.split sep s) ++ JS.split sep t.
Proof.
  rewrite split_app_sep. pose proof (split_nonempty sep s) as N.
  destruct (JS.split sep s); [contradiction|reflexivity].
Qed.

Lemma deriveSegments_app (a b : list string) (cur : Buf.t) :
  deriveSegments (a ++ b) cur
  = match deriveSegments a cur with
    | Ok k => deriveSegments b k
    | Throw e => Throw e
    end.
Proof.
  revert cur. induction a as [|seg rest IH]; intros cur; [reflexivity|].
  cbn [app deriveSegments]. destruct (deriveSegment cur seg); [apply IH|reflexivity].
Qed.

(** Derivation chains: the key derived along a path, handed back as
    hexadecimal text, is the seed from which the rest of a longer path
    derives the same key as the longer path does from the first seed. *)
Theorem derivePath_chains (path more seed : string) (k : Buf.t) :
  derivePath path seed = Ok k ->
  derivePath (path ++ String "/" more) seed
  = derivePath (String "m" (String "/" more)) (Hex.encode k).
Proof.
  unfold derivePath. intros D.
  rewrite tl_split_app_sep, deriveSegments_app, D, hex_roundtrip.
  reflexivity.
Qed.

Lemma derivePath_chains_witness :
  derivePath ("m/44'/501'" ++ String "/" "0'/0'") scenarioSeed
  = derivePath (String "m" (String "/" "0'/0'"))
               (Hex.encode (Hex.decode
                  "55a10cb773ae7cbae183c73d5092dd4d0d2c56513c3afb0edc8cca10de7ea5ea")).
Proof.
  apply derivePath_chains. vm_compute. reflexivity.
Defined.

Lemma deriveSegments_marked (segments : list string) (cur : Buf.t) :
  deriveSegments segments cur
  = deriveSegments (filter (fun segment => JS.endsWith segment "'") segments) cur.
Proof.
  revert cur. induction segments as [|seg rest IH]; intros cur; [reflexivity|].
  cbn [filter]. destruct (JS.endsWith seg "'") eqn:E.
  - cbn [deriveSegments]. destruct (deriveSegment cur seg); [apply IH|reflexivity].
  - cbn [deriveSegments]. rewrite (deriveSegment_plain _ _ E). apply IH.
Qed.

(** The custom deriver reads a path through its marked pieces only: two
    paths with the same marked pieces after the first, in the same order,
    derive the same key, whatever their first piece and their unmarked
    pieces are. *)
Theorem derivePath_reads_marked_only (path1 path2 seed : string) :
  markedSegments path1 = markedSegments path2 ->
  derivePath path1 seed = derivePath path2 seed.
Proof.
  unfold markedSegments, derivePath. intros M.
  rewrite (deriveSegments_marked (tl (JS.split "/" path1))), M.
  symmetry. apply deriveSegments_marked.
Qed.

Lemma derivePath_reads_marked_only_witness :
  derivePath "m/44'/501'/0'/0'" scenarioSeed
  = derivePath "wallet/7/44'/501'/account/0'/0'/" scenarioSeed.
Proof. apply derivePath_reads_marked_only. reflexivity. Defined.

(** *** The size of the derived key *)

Lemma be_length (n : nat) (z : Z) : List.length (Buf.be n z) = n.
Proof. induction n as [|k IH]; [reflexivity|]. cbn [Buf.be List.length]. now rewrite IH. Qed.

Lemma compress_length (h : list Z) (block : Buf.t) :
  List.length h = 8%nat -> List.length (SHA512.compress h block) = 8%nat.
Proof.
  intros L. unfold SHA512.compress.
  rewrite length_map, length_combine, L. reflexivity.
Qed.

Lemma compress_all_length (blocks : list Buf.t) (h : list Z) :
  List.length h = 8%nat ->
  List.length (fold_left SHA512.compress blocks h) = 8%nat.
Proof.
  revert h. induction blocks as [|b r IH]; intros h L; [exact L|].
  cbn [fold_left]. apply IH. now apply compress_length.
Qed.

Lemma flat_map_be_length (h : list Z) :
  List.length (flat_map (Buf.be 8) h) = (8 * List.length h)%nat.
Proof.
  induction h as [|z r IH]; [reflexivity|].
  cbn [flat_map]. rewrite length_app, be_length, IH. cbn [List.length]. lia.
Qed.

(** [nacl.hash] returns 64 bytes. *)
Lemma nacl_hash_length (data : Buf.t) : List.length (nacl_hash data) = 64%nat.
Proof.
  unfold nacl_hash, SHA512.hash.
  rewrite flat_map_be_length, compress_all_length; reflexivity.
Qed.





(* ------------------------------------------------------------------ *)
(** ** Texts that travel between the functions *)

Lemma encode_length (b : Buf.t) :
  String.length (Hex.encode b) = (2 * List.length b)%nat.
Proof.
  induction b as [|x r IH]; [reflexivity|].
  cbn [Hex.encode String.length List.length]. rewrite IH. lia.
Qed.

(** The seed goes from [generateWalletFromMnemonic] to [derivePath] as
    hexadecimal text, two characters a byte, and what [derivePath] decodes
    is the seed, byte for byte. *)
Theorem seed_text_roundtrip (seedBuffer : Buf.t) :
  Hex.decode (Hex.encode seedBuffer) = seedBuffer
  /\ String.length (Hex.encode seedBuffer) = (2 * List.length seedBuffer)%nat.
Proof. split; [apply hex_roundtrip|apply encode_length]. Qed.

(** [words.join(sep)] undoes [text.split(sep)]. *)
Lemma join_split (sep : ascii) (s : string) :
  JS.join (String sep EmptyString) (JS.split sep s) = s.
Proof.
  induction s as [|c r IH]; [reflexivity|].
  cbn [JS.split]. pose proof (split_nonempty sep r) as N.
  destruct (Ascii.eqb c sep) eqn:E.
  - apply Ascii.eqb_eq in E. subst c.
    destruct (JS.split sep r) as [|h t]; [contradiction|].
    change (JS.join (String sep EmptyString) (EmptyString :: h :: t))
      with (EmptyString ++ String sep EmptyString
              ++ JS.join (String sep EmptyString) (h :: t))%string.
    now rewrite IH.
  - destruct (JS.split sep r) as [|h t]; [contradiction|].
    rewrite <- IH. now destruct t.
Qed.

Lemma accountIndex_of_path (w1 w2 : Wallet) :
  path w1 = path w2 -> accountIndex w1 = accountIndex w2.
Proof. unfold accountIndex. now intros ->. Qed.

Lemma indexed_NoDup (ws : list Wallet) : indexed ws -> NoDup (map path ws).
Proof.
  intros I. apply NoDup_nth_error. intros i j L E.
  rewrite length_map in L. rewrite !nth_error_map in E.
  destruct (nth_error ws i) as [wi|] eqn:Wi; [|apply nth_error_None in Wi; lia].
  destruct (nth_error ws j) as [wj|] eqn:Wj; [|discriminate].
  cbn in E. injection E as E. apply accountIndex_of_path in E.
  rewrite (I _ _ Wi), (I _ _ Wj) in E. injection E as E. lia.
Qed.

Section Phrases.

Context {pkg : Packages}.

Lemma createFrom_success (phrase : string) (s : App) (w : Wallet) :
  wallets (createFrom phrase s) = wallets s ++ [w] ->
  mnemonic w = phrase
  /\ mnemonicWords (createFrom phrase s) = JS.split " " phrase
  /\ localStorage (createFrom phrase s)
     = {| key_wallets := Some (Json (wallets s ++ [w]));
          key_mnemonics := Some (Json (JS.split " " phrase));
          key_paths := Some (Json (pathTypes s)) |}
  /\ pathTypes (createFrom phrase s) = pathTypes s
  /\ visiblePrivateKeys (createFrom phrase s) = visiblePrivateKeys s ++ [false].
Proof.
  unfold createFrom.
  destruct (generateWalletFromMnemonic _ _ _) as [[w0|] notes] eqn:G; cbn.
  - intros E. apply app_inj_tail in E as [_ <-].
    apply generated_wallet in G as (_ & _ & M & _). now rewrite M.
  - intros E. apply (f_equal (@List.length Wallet)) in E.
    rewrite length_app in E. cbn in E. lia.
Qed.

Lemma handleGenerateWallet_success (generated : string) (s : App) (w : Wallet) :
  wallets (handleGenerateWallet generated s) = wallets s ++ [w] ->
  handleGenerateWallet generated s = createFrom (mnemonic w) s
  /\ mnemonic w
     = (if truthy (JS.trim (mnemonicInput s)) then JS.trim (mnemonicInput s) else generated).
Proof.
  unfold handleGenerateWallet.
  destruct (truthy _).
  - destruct (negb _).
    + cbn. intros E. apply (f_equal (@List.length Wallet)) in E.
      rewrite length_app in E. cbn in E. lia.
    + intros E. destruct (createFrom_success _ _ _ E) as (M & _). now rewrite M.
  - intros E. destruct (createFrom_success _ _ _ E) as (M & _). now rewrite M.
Qed.

Lemma handleAddWallet_success (s : App) (w : Wallet) :
  wallets (handleAddWallet s) = wallets s ++ [w] ->
  mnemonic w = JS.join " " (mnemonicWords s)
  /\ mnemonicWords (handleAddWallet s) = mnemonicWords s
  /\ pathTypes (handleAddWallet s) = pathTypes s
  /\ localStorage (handleAddWallet s)
     = {| key_wallets := Some (Json (wallets s ++ [w]));
          key_mnemonics := key_mnemonics (localStorage s);
          key_paths := key_paths (localStorage s) |}.
Proof.
  unfold handleAddWallet. destruct (_ =? _)%nat.
  - cbn. intros E. apply (f_equal (@List.length Wallet)) in E.
    rewrite length_app in E. cbn in E. lia.
  - destruct (generateWalletFromMnemonic _ _ _) as [[w0|] notes] eqn:G; cbn.
    + intros E. apply app_inj_tail in E as [_ <-].
      apply generated_wallet in G as (_ & _ & M & _). now rewrite M.
    + intros E. apply (f_equal (@List.length Wallet)) in E.
      rewrite length_app in E. cbn in E. lia.
Qed.

(** The phrase is kept as words and joined again: a wallet that
    [addWallet] adds right after [createFirstWallet] has created one
    carries the very phrase of that one, which is the input, trimmed, or
    else the generated phrase. *)
Theorem added_wallet_shares_phrase (generated : string) (s : App) (w w2 : Wallet) :
  wallets (handleGenerateWallet generated s) = wallets s ++ [w] ->
  wallets (handleAddWallet (handleGenerateWallet generated s))
  = wallets (handleGenerateWallet generated s) ++ [w2] ->
  mnemonic w2 = mnemonic w
  /\ mnemonic w
     = (if truthy (JS.trim (mnemonicInput s)) then JS.trim (mnemonicInput s) else generated).
Proof.
  intros C A. destruct (handleGenerateWallet_success _ _ _ C) as (H & M).
  split; [|exact M].
  apply handleAddWallet_success in A as (A & _).
  rewrite A, H. rewrite H in C.
  destruct (createFrom_success (mnemonic w) s w C) as (_ & W & _).
  rewrite W. apply join_split.
Qed.

(** In a collection that starts empty and sees no [deleteWallet], no two
    wallets have the same derivation path. *)
Theorem paths_distinct (ops : list Op) (s0 : App) :
  wallets s0 = [] ->
  existsb isDelete ops = false ->
  NoDup (map path (wallets (run ops s0))).
Proof.
  intros E D. apply indexed_NoDup, run_indexed; [exact D|].
  rewrite E. apply indexed_nil.
Qed.

End Phrases.

Lemma added_wallet_shares_phrase_witness :
  exists w w2,
    wallets (solanaRun []) = [w]
    /\ wallets (solanaRun [addWallet]) = [w; w2]
    /\ mnemonic w2 = mnemonic w
    /\ mnemonic w = scenarioPhrase.
Proof.
  eexists ?[w], ?[w2].
  assert (C : wallets (handleGenerateWallet (pkg := standIn) scenarioPhrase
                         (setMnemonicInput "" (chooseSolana (initial emptyStorage))))
              = wallets (setMnemonicInput "" (chooseSolana (initial emptyStorage))) ++ [?w])
    by (vm_compute; reflexivity).
  assert (A : wallets (handleAddWallet (pkg := standIn)
                         (handleGenerateWallet (pkg := standIn) scenarioPhrase
                            (setMnemonicInput "" (chooseSolana (initial emptyStorage)))))
              = wallets (handleGenerateWallet (pkg := standIn) scenarioPhrase
                           (setMnemonicInput "" (chooseSolana (initial emptyStorage))))
                ++ [?w2])
    by (vm_compute; reflexivity).
  destruct (added_wallet_shares_phrase (pkg := standIn) _ _ _ _ C A) as (S1 & S2).
  split; [vm_compute; reflexivity|]. split; [vm_compute; reflexivity|].
  split; [exact S1|exact S2].
Defined.

Lemma paths_distinct_witness :
  NoDup (map path (wallets (run (pkg := standIn)
                              [chooseChain true; createFirstWallet "" scenarioPhrase;
                               addWallet; addWallet]
                              (initial emptyStorage)))).
Proof. apply (paths_distinct (pkg := standIn)); reflexivity. Defined.

(* ------------------------------------------------------------------ *)
(** ** Loading, deleting and toggling at the edges *)

(** When one of the three keys is absent from the store, or its text is
    empty, loading changes nothing: no wallet, no phrase, no chain, no
    notification. *)
Theorem load_needs_all_keys (s : App) :
  allPresent (localStorage s) = false -> loadSavedWallets s = s.
Proof. unfold allPresent, loadSavedWallets. now intros ->. Qed.

Lemma load_needs_all_keys_witness :
  loadSavedWallets
    (initial {| key_wallets := key_wallets tornStore;
                key_mnemonics := None;
                key_paths := Some (Json ["60"%string]) |})
  = initial {| key_wallets := key_wallets tornStore;
               key_mnemonics := None;
               key_paths := Some (Json ["60"%string]) |}.
Proof. apply load_needs_all_keys. reflexivity. Defined.

(** When the three texts are there and one of them fails to parse,
    loading reports the failure, once, and sets neither the chain
    selection nor the flags. *)
Theorem load_reports_unparsable (s : App) :
  allPresent (localStorage s) = true ->
  unparsable (localStorage s) = true ->
  toasts (loadSavedWallets s) = toasts s ++ [toast_error "Failed to load saved wallets"]
  /\ pathTypes (loadSavedWallets s) = pathTypes s
  /\ visiblePrivateKeys (loadSavedWallets s) = visiblePrivateKeys s
  /\ localStorage (loadSavedWallets s) = localStorage s.
Proof.
  unfold allPresent, unparsable, loadSavedWallets.
  destruct (key_wallets (localStorage s)) as [[ws| |]|];
    destruct (key_mnemonics (localStorage s)) as [[ms| |]|];
    destruct (key_paths (localStorage s)) as [[ps| |]|];
    cbn; intros P U; try discriminate; repeat split.
Qed.

Lemma load_reports_unparsable_witness :
  toasts (loadSavedWallets (initial tornStore))
  = toasts (initial tornStore) ++ [toast_error "Failed to load saved wallets"]
  /\ pathTypes (loadSavedWallets (initial tornStore)) = pathTypes (initial tornStore)
  /\ visiblePrivateKeys (loadSavedWallets (initial tornStore))
     = visiblePrivateKeys (initial tornStore)
  /\ localStorage (loadSavedWallets (initial tornStore)) = localStorage (initial tornStore).
Proof. apply load_reports_unparsable; reflexivity. Defined.

(** [deleteWallet] at an index past the end removes no wallet, yet writes
    the wallets to the store and reports "Wallet deleted". *)
Theorem delete_past_the_end (index : nat) (s : App) :
  (List.length (wallets s) <= index)%nat ->
  wallets (handleDeleteWallet index s) = wallets s
  /\ key_wallets (localStorage (handleDeleteWallet index s)) = Some (Json (wallets s))
  /\ toasts (handleDeleteWallet index s) = toasts s ++ [toast_success "Wallet deleted"].
Proof.
  intros L.
  assert (W : filterIndex (fun i => negb (i =? index)%nat) (wallets s) = wallets s).
  { rewrite filterIndex_remove, firstn_all2, skipn_all2 by lia. apply app_nil_r. }
  cbn. rewrite W. repeat split.
Qed.

Lemma delete_past_the_end_witness :
  wallets (handleDeleteWallet 3 (loadSavedWallets (initial unknownChainStore)))
  = wallets (loadSavedWallets (initial unknownChainStore))
  /\ key_wallets (localStorage
                    (handleDeleteWallet 3 (loadSavedWallets (initial unknownChainStore))))
     = Some (Json (wallets (loadSavedWallets (initial unknownChainStore))))
  /\ toasts (handleDeleteWallet 3 (loadSavedWallets (initial unknownChainStore)))
     = toasts (loadSavedWallets (initial unknownChainStore))
       ++ [toast_success "Wallet deleted"].
Proof. apply delete_past_the_end. cbn. lia. Defined.

Lemma nth_error_mapFrom {A B : Type} (f : A -> nat -> B) (l : list A) (i k : nat) :
  nth_error (mapFrom f i l) k = option_map (fun x => f x (i + k)%nat) (nth_error l k).
Proof.
  revert i k. induction l as [|x r IH]; intros i [|k]; cbn [mapFrom nth_error option_map];
    try reflexivity.
  - now rewrite Nat.add_0_r.
  - rewrite IH. now replace (S i + k)%nat with (i + S k)%nat by lia.
Qed.

(** Toggling flips the flag at the index and no other, touches neither
    the wallets nor the store, says nothing, and does nothing at all at an
    index with no flag; toggling twice gives the flags back. *)
Theorem toggle_flips_one (index : nat) (s : App) :
  (forall k,
      nth_error (visiblePrivateKeys (togglePrivateKeyVisibility index s)) k
      = if (k =? index)%nat
        then option_map negb (nth_error (visiblePrivateKeys s) k)
        else nth_error (visiblePrivateKeys s) k)
  /\ visiblePrivateKeys
       (togglePrivateKeyVisibility index (togglePrivateKeyVisibility index s))
     = visiblePrivateKeys s
  /\ wallets (togglePrivateKeyVisibility index s) = wallets s
  /\ localStorage (togglePrivateKeyVisibility index s) = localStorage s
  /\ toasts (togglePrivateKeyVisibility index s) = toasts s.
Proof.
  assert (F : forall (flags : list bool) k,
             nth_error (mapIndex (fun visible i => if (i =? index)%nat
                                                   then negb visible else visible) flags) k
             = if (k =? index)%nat
               then option_map negb (nth_error flags k)
               else nth_error flags k).
  { intros flags k. unfold mapIndex. rewrite nth_error_mapFrom. cbn [Nat.add].
    destruct (k =? index)%nat; destruct (nth_error flags k); reflexivity. }
  split; [intros k; apply F|]. split; [|repeat split].
  unfold togglePrivateKeyVisibility.
  cbn [visiblePrivateKeys setVisiblePrivateKeys].
  apply nth_error_ext. intros k. rewrite !F.
  destruct (k =? index)%nat; [|reflexivity].
  destruct (nth_error (visiblePrivateKeys s) k) as [b|]; [|reflexivity].
  cbn. now rewrite negb_involutive.
Qed.

(* ------------------------------------------------------------------ *)
(** ** Notifications, and what follows the deletion of the first wallet *)

Lemma filterFrom_shorter {A : Type} (p : nat -> bool) (l : list A) (i : nat) :
  (List.length (filterFrom p i l) <= List.length l)%nat.
Proof.
  revert i. induction l as [|x r IH]; intros i; [reflexivity|].
  cbn [filterFrom]. specialize (IH (S i)). destruct (p i); cbn [List.length]; lia.
Qed.

Lemma simplifiedStep_length (cur : Buf.t) (i : Z) :
  List.length (simplifiedStep cur i) = 32%nat.
Proof. unfold simplifiedStep. now rewrite length_firstn, nacl_hash_length. Qed.

Lemma simplifiedDerivation_length (indices : list Z) (seed : Buf.t) :
  indices <> [] \/ List.length seed = 32%nat ->
  List.length (simplifiedDerivation seed indices) = 32%nat.
Proof.
  unfold simplifiedDerivation. revert seed.
  induction indices as [|i r IH]; intros seed H; cbn [fold_left].
  - destruct H as [H|H]; [contradiction|exact H].
  - apply IH. right. apply simplifiedStep_length.
Qed.

Section Notifications.

Context {pkg : Packages}.




(** With no chain selected, no operation but the choice of a chain makes
    the collection grow or selects a chain. *)
Lemma step_without_selection (s : App) (op : Op) :
  isChoose op = false ->
  pathTypes s = [] ->
  pathTypes (step s op) = []
  /\ (List.length (wallets (step s op)) <= List.length (wallets s))%nat.
Proof.
  intros C P. destruct op as [b|input generated| |i| |i]; cbn [step].
  - discriminate.
  - set (c := setMnemonicInput input s).
    assert (F : forall phrase,
               pathTypes (createFrom phrase c) = []
               /\ (List.length (wallets (createFrom phrase c)) <= List.length (wallets s))%nat).
    { intros phrase.
      destruct (createFrom_failure phrase c) as (W' & _ & P' & _).
      - apply no_wallet_without_chain; cbn; rewrite P; reflexivity.
      - rewrite P', W'. now split. }
    unfold handleGenerateWallet.
    destruct (truthy _); [|apply F]. destruct (negb _); [now split|apply F].
  - destruct (handleAddWallet_failure s) as (W' & _ & P' & _).
    + apply no_wallet_without_chain; rewrite P; reflexivity.
    + rewrite P', W'. now split.
  - cbn. rewrite P. split; [reflexivity|apply filterFrom_shorter].
  - cbn. split; [reflexivity|lia].
  - now split.
Qed.

Lemma run_without_selection (ops : list Op) (s : App) :
  existsb isChoose ops = false ->
  pathTypes s = [] ->
  (List.length (wallets (run ops s)) <= List.length (wallets s))%nat.
Proof.
  revert s. induction ops as [|op ops IH]; intros s C P; [reflexivity|].
  cbn [existsb] in C. apply orb_false_iff in C as [C1 C2].
  cbn [run fold_left].
  destruct (step_without_selection s op C1 P) as (P' & L).
  specialize (IH (step s op) C2 P'). unfold run in IH. lia.
Qed.

(** Deleting the wallet at index 0 takes the chain selection with it
    (the selection holds one chain, at index 0): from then on, whatever
    wallets remain, no sequence of operations adds a wallet until a chain
    is chosen again. *)
Theorem delete_first_blocks_add (s : App) (ops : list Op) :
  (List.length (pathTypes s) <= 1)%nat ->
  existsb isChoose ops = false ->
  pathTypes (handleDeleteWallet 0 s) = []
  /\ (List.length (wallets (run ops (handleDeleteWallet 0 s)))
      <= List.length (wallets (handleDeleteWallet 0 s)))%nat.
Proof.
  intros L C.
  assert (P : pathTypes (handleDeleteWallet 0 s) = []).
  { cbn. rewrite filterIndex_remove. cbn [firstn skipn app].
    destruct (pathTypes s) as [|c [|c2 r]]; cbn in *; try reflexivity; lia. }
  split; [exact P|]. now apply run_without_selection.
Qed.

(** On Solana a wallet is always generated: for every phrase and every
    account index below 2^31 the custom deriver returns 32 bytes, so a
    key pair package that accepts every 32-byte seed is never refused,
    and the wallet carries the path of the template and the phrase. *)
Theorem solana_wallet_generated (phrase : string) (n : nat) :
  Z.of_nat n < 2 ^ 31 ->
  (forall seed, List.length seed = 32%nat ->
     exists keyPair publicKey,
       sign_keyPair_fromSeed seed = Ok keyPair
       /\ Keypair_fromSecretKey (kp_secretKey keyPair) = Ok publicKey) ->
  exists w,
    generateWalletFromMnemonic (Some "501"%string) phrase n = (Some w, [])
    /\ path w = pathOf (Some "501"%string) n
    /\ mnemonic w = phrase.
Proof.
  intros B K. unfold generateWalletFromMnemonic, derivePath.
  rewrite hex_roundtrip, split_pathOf by reflexivity.
  cbn [tl pathTypeText]. change "501"%string with (JS.ofZ 501) at 1.
  rewrite deriveSegments_template by lia.
  change (isPathType (Some "501"%string) "501") with true. cbv iota.
  destruct (K (simplifiedDerivation (mnemonicToSeedSync phrase) [44; 501; 0; Z.of_nat n]))
    as (keyPair & publicKey & -> & ->).
  - apply simplifiedDerivation_length. left. discriminate.
  - eexists. repeat split.
Qed.

End Notifications.

Lemma delete_first_blocks_add_witness :
  pathTypes (handleDeleteWallet 0 (solanaRun [addWallet])) = []
  /\ (List.length (wallets (run (pkg := standIn) [addWallet; addWallet]
                              (handleDeleteWallet 0 (solanaRun [addWallet]))))
      <= List.length (wallets (handleDeleteWallet 0 (solanaRun [addWallet]))))%nat.
Proof.
  apply (delete_first_blocks_add (pkg := standIn)); [|reflexivity].
  vm_compute. lia.
Defined.

Lemma standIn_accepts (seed : Buf.t) :
  List.length seed = 32%nat ->
  exists keyPair publicKey,
    sign_keyPair_fromSeed (Packages := standIn) seed = Ok keyPair
    /\ Keypair_fromSecretKey (Packages := standIn) (kp_secretKey keyPair) = Ok publicKey.
Proof.
  intros L. cbn [sign_keyPair_fromSeed Keypair_fromSecretKey standIn]. rewrite L.
  cbn [Nat.eqb kp_secretKey]. eexists. eexists. split; [reflexivity|].
  cbn [kp_secretKey]. rewrite length_app, length_firstn, nacl_hash_length, L.
  reflexivity.
Qed.

Lemma solana_wallet_generated_witness :
  exists w,
    generateWalletFromMnemonic (pkg := standIn) (Some "501"%string) scenarioPhrase 5
    = (Some w, [])
    /\ path w = pathOf (Some "501"%string) 5
    /\ mnemonic w = scenarioPhrase.
Proof.
  apply (solana_wallet_generated (pkg := standIn)); [cbn; lia|].
  exact standIn_accepts.
Defined.

(* ------------------------------------------------------------------ *)
(** ** The page: hidden keys *)

Lemma shownCards_wallets (s : App) : shownCards s = mapIndex (card s) (wallets s).
Proof.
  unfold shownCards, render. cbn [walletList].
  destruct (wallets s); reflexivity.
Qed.

Lemma nth_error_shownCards (s : App) (k : nat) :
  nth_error (shownCards s) k = option_map (fun w => card s w k) (nth_error (wallets s) k).
Proof. rewrite shownCards_wallets. unfold mapIndex. now rewrite nth_error_mapFrom. Qed.

Lemma load_flags_hidden (store : Storage) (k : nat) :
  keyVisible (loadSavedWallets (initial store)) k = false.
Proof.
  unfold keyVisible, loadSavedWallets.
  destruct store as [[[ws| |]|] [[ms| |]|] [[ps| |]|]]; cbn;
    try (now destruct k).
  rewrite nth_error_map. now destruct (nth_error ws k).
Qed.

(** After the saved wallets are loaded, whatever the store holds, no
    private key is on the page and none can be copied: every wallet shows
    bullets, at most 40. *)
Theorem loaded_keys_masked (store : Storage) (c : Card) :
  In c (shownCards (loadSavedWallets (initial store))) ->
  privateKeyCopy c = None
  /\ exists bullets, shownPrivateKey c = Masked bullets /\ (bullets <= 40)%nat.
Proof.
  intros I. apply In_nth_error in I as [k K].
  rewrite nth_error_shownCards in K.
  destruct (nth_error _ k) as [w|]; [|discriminate].
  cbn in K. injection K as <-. unfold card. cbn [privateKeyCopy shownPrivateKey].
  rewrite load_flags_hidden. split; [reflexivity|].
  eexists. split; [reflexivity|]. apply Nat.le_min_l.
Qed.

Lemma nth_error_remove {A : Type} (l : list A) (i k : nat) :
  nth_error (firstn i l ++ skipn (S i) l) k
  = nth_error l (if (k <? i)%nat then k else S k).
Proof.
  revert i k. induction l as [|x r IH]; intros i k.
  - rewrite firstn_nil, skipn_nil. cbn [app].
    now destruct (k <? i)%nat, k.
  - destruct i as [|i]; [reflexivity|].
    cbn [firstn skipn app]. destruct k as [|k]; [reflexivity|].
    cbn [nth_error]. rewrite IH.
    change (S k <? S i)%nat with (k <? i)%nat. now destruct (k <? i)%nat.
Qed.


(* ------------------------------------------------------------------ *)
(** ** Sessions: the store, the phrase and the wallets agree *)

Lemma In_remove {A : Type} (l : list A) (i : nat) (x : A) :
  In x (firstn i l ++ skipn (S i) l) -> In x l.
Proof.
  intros I. apply In_nth_error in I as [k K].
  rewrite nth_error_remove in K. eapply nth_error_In, K.
Qed.

Lemma wallets_nil_length (s : App) :
  (List.length (wallets s) =? 0)%nat = true -> wallets s = [].
Proof. destruct (wallets s); [reflexivity|discriminate]. Qed.

Lemma wallets_cons_length (s : App) :
  (0 <? List.length (wallets s))%nat = true -> wallets s <> [].
Proof. destruct (wallets s); discriminate. Qed.

Section Sessions.

Context {pkg : Packages}.

Lemma createFrom_pathTypes (phrase : string) (s : App) :
  pathTypes (createFrom phrase s) = pathTypes s.
Proof.
  unfold createFrom. now destruct (generateWalletFromMnemonic _ _ _) as [[w|] notes].
Qed.

Lemma handleGenerateWallet_pathTypes (generated : string) (s : App) :
  pathTypes (handleGenerateWallet generated s) = pathTypes s.
Proof.
  unfold handleGenerateWallet.
  destruct (truthy _); [destruct (negb _)|]; try apply createFrom_pathTypes.
  reflexivity.
Qed.

Lemma handleAddWallet_pathTypes (s : App) :
  pathTypes (handleAddWallet s) = pathTypes s.
Proof.
  unfold handleAddWallet. destruct (_ =? _)%nat; [reflexivity|].
  now destruct (generateWalletFromMnemonic _ _ _) as [[w|] notes].
Qed.

Lemma settled_of_same (s s' : App) :
  wallets s' = wallets s -> mnemonicWords s' = mnemonicWords s ->
  pathTypes s' = pathTypes s -> localStorage s' = localStorage s ->
  settled s -> settled s'.
Proof.
  unfold settled, snapshot. intros -> -> -> ->. exact (fun H => H).
Qed.

Lemma settled_of_nil (s : App) : wallets s = [] -> settled s.
Proof. intros E N. now rewrite E in N. Qed.

(** Every event the page offers keeps the collection settled. *)
Lemma handle_settled (s : App) (e : Event) :
  offered s e = true -> settled s -> settled (handle s e).
Proof.
  intros O I. destruct e as [ | |text|generated| |written| | |confirmed
                            |index confirmed|index written|index written|index];
    cbn [handle offered] in *.
  - apply settled_of_nil. cbn. apply andb_prop in O as [O _]. now apply wallets_nil_length.
  - apply settled_of_nil. cbn. apply andb_prop in O as [O _]. now apply wallets_nil_length.
  - now apply (settled_of_same s).
  - assert (E : wallets s = []).
    { unfold render in O. cbn [phraseForm] in O.
      destruct (wallets s); [reflexivity|discriminate]. }
    destruct (handleGenerateWallet_wallets generated s) as [(W & _)|(w & W & _)].
    + apply settled_of_nil. now rewrite W.
    + destruct (handleGenerateWallet_success generated s w W) as (H & _).
      rewrite H in W |- *.
      destruct (createFrom_success (mnemonic w) s w W) as (_ & Wd & St & Pt & _).
      intros _. unfold snapshot. rewrite W, Wd, St, Pt. split; [reflexivity|].
      split; [apply split_nonempty|].
      rewrite E. intros w' [<-|[]]. symmetry. apply join_split.
  - now apply (settled_of_same s).
  - now apply (settled_of_same s).
  - now apply (settled_of_same s).
  - assert (N : wallets s <> []).
    { apply wallets_cons_length. unfold render in O. cbn [walletList] in O.
      now destruct (0 <? List.length (wallets s))%nat. }
    destruct (handleAddWallet_wallets s) as [(W & _ & St & Wd)|(w & W & _)].
    + apply (settled_of_same s); auto using handleAddWallet_pathTypes.
    + destruct (handleAddWallet_success s w W) as (M & Wd & Pt & St).
      destruct (I N) as (S0 & Wn & Sh).
      intros _. unfold snapshot. rewrite W, Wd, Pt, St, S0. cbn.
      split; [reflexivity|]. split; [exact Wn|].
      intros w' H. apply in_app_or in H as [H|[<-|[]]]; [now apply Sh|exact M].
  - destruct confirmed; [apply settled_of_nil; reflexivity|exact I].
  - destruct confirmed; [|exact I].
    assert (N : wallets s <> []).
    { rewrite shownCards_wallets in O. unfold mapIndex in O.
      rewrite mapFrom_length in O. apply Nat.ltb_lt in O.
      intros E. rewrite E in O. cbn in O. lia. }
    destruct (I N) as (S0 & Wn & Sh).
    intros _. unfold snapshot. cbn. rewrite S0. cbn.
    split; [reflexivity|]. split; [exact Wn|].
    intros w' H. rewrite filterIndex_remove in H. apply In_remove in H. now apply Sh.
  - now apply (settled_of_same s).
  - destruct (keyVisible s index); [now apply (settled_of_same s)|exact I].
  - now apply (settled_of_same s).
Qed.

Lemma interact_settled (events : list Event) (s : App) :
  settled s -> settled (interact events s).
Proof.
  revert s. induction events as [|e r IH]; intros s I; [exact I|].
  cbn [interact fold_left]. apply IH.
  destruct (offered s e) eqn:O; [now apply handle_settled|exact I].
Qed.


(** All the wallets of a collection carry its phrase: in a session that
    starts with no wallet, the phrase recorded in every wallet is the
    words of the collection joined by spaces. *)
Theorem phrase_shared (events : list Event) (s0 : App) (w : Wallet) :
  wallets s0 = [] ->
  In w (wallets (interact events s0)) ->
  mnemonic w = JS.join " " (mnemonicWords (interact events s0)).
Proof.
  intros E I.
  destruct (interact_settled events s0 (settled_of_nil s0 E)) as (_ & _ & Sh).
  - intros N. now rewrite N in I.
  - now apply Sh.
Qed.

Lemma generated_notes_kind (pathType : option string) (phrase : string) (n : nat) :
  (exists w, generateWalletFromMnemonic pathType phrase n = (Some w, []))
  \/ (exists msg, generateWalletFromMnemonic pathType phrase n = (None, [toast_error msg])).
Proof.
  unfold generateWalletFromMnemonic.
  destruct (derivePath _ _); [|right; eexists; reflexivity].
  destruct (isPathType pathType "501").
  - destruct (sign_keyPair_fromSeed _); [|right; eexists; reflexivity].
    destruct (Keypair_fromSecretKey _); [|right; eexists; reflexivity].
    left. eexists. reflexivity.
  - destruct (isPathType pathType "60"); [|right; eexists; reflexivity].
    destruct (ethers_Wallet_address _); [|right; eexists; reflexivity].
    left. eexists. reflexivity.
Qed.

(** The warning of [addWallet] for a missing phrase cannot come up on the
    page: in a session that starts with no wallet, whenever the Add Wallet
    button is there, a click on it reports a success or an error of the
    derivation, never "No mnemonic found". *)
Theorem add_never_warns (events : list Event) (s0 : App) :
  wallets s0 = [] ->
  offered (interact events s0) clickAddWallet = true ->
  toasts (handle (interact events s0) clickAddWallet)
  <> toasts (interact events s0)
     ++ [toast_warning "No mnemonic found. Generate a wallet first"].
Proof.
  intros E O. set (s := interact events s0) in *.
  assert (N : wallets s <> []).
  { apply wallets_cons_length. cbn [offered] in O. unfold render in O.
    cbn [walletList] in O. now destruct (0 <? List.length (wallets s))%nat. }
  destruct (interact_settled events s0 (settled_of_nil s0 E) N) as (_ & Wn & _).
  fold s in Wn. cbn [handle]. unfold handleAddWallet.
  destruct (mnemonicWords s) as [|word rest] eqn:Wd; [contradiction|].
  cbn [List.length Nat.eqb].
  destruct (generated_notes_kind (nth_error (pathTypes s) 0)
              (JS.join " " (word :: rest)) (List.length (wallets s)))
    as [(w & ->)|(msg & ->)]; cbn; rewrite ?app_nil_r;
    intros H; apply app_inv_head in H; discriminate.
Qed.

(** The chain selection is empty or holds one supported chain: starting
    with none selected, after any operations it is [[]], [["501"]] or
    [["60"]]. *)
Theorem selection_is_one_chain (ops : list Op) (s0 : App) :
  pathTypes s0 = [] ->
  pathTypes (run ops s0) = []
  \/ pathTypes (run ops s0) = ["501"%string]
  \/ pathTypes (run ops s0) = ["60"%string].
Proof.
  intros E.
  assert (H : pathTypes s0 = [] \/ pathTypes s0 = ["501"%string]
              \/ pathTypes s0 = ["60"%string]) by now left.
  clear E. revert s0 H. induction ops as [|op r IH]; intros s H; [exact H|].
  cbn [run fold_left]. apply IH.
  destruct op as [[|]|input generated| |i| |i]; cbn [step].
  - right. now left.
  - right. now right.
  - now rewrite handleGenerateWallet_pathTypes.
  - now rewrite handleAddWallet_pathTypes.
  - cbn. rewrite filterIndex_remove.
    destruct H as [->|[->| ->]]; destruct i as [|[|i]]; cbn; auto.
  - now left.
  - exact H.
Qed.

End Sessions.

Section BlankInput.

Context {pkg : Packages}.

Lemma createFrom_words (phrase : string) (s : App) :
  mnemonicWords (createFrom phrase s) = JS.split " " phrase.
Proof.
  unfold createFrom. now destruct (generateWalletFromMnemonic _ _ _) as [[w|] notes].
Qed.

(** An input of white space only is not blank for the button, which
    reads "Import Wallet", and is blank for the handler, which drops it
    and takes the generated phrase. *)
Theorem blank_input_label (generated : string) (s : App) (form : PhraseForm) :
  phraseForm (render s) = Some form ->
  truthy (mnemonicInput s) = true ->
  JS.trim (mnemonicInput s) = EmptyString ->
  buttonLabel form = "Import Wallet"%string
  /\ mnemonicWords (handleGenerateWallet generated s) = JS.split " " generated.
Proof.
  intros F T B. split.
  - unfold render in F. cbn [phraseForm] in F.
    destruct (_ && _); [|discriminate]. injection F as <-.
    cbn [buttonLabel]. now rewrite T.
  - unfold handleGenerateWallet. rewrite B. cbn [truthy String.eqb negb].
    apply createFrom_words.
Qed.

End BlankInput.

Lemma blank_input_label_witness :
  buttonLabel {| inputValue := "   "; buttonLabel := "Import Wallet" |}
  = "Import Wallet"%string
  /\ mnemonicWords
       (handleGenerateWallet (pkg := standIn) scenarioPhrase
          (setMnemonicInput "   " (chooseEthereum (initial emptyStorage))))
     = JS.split " " scenarioPhrase.
Proof.
  apply (blank_input_label (pkg := standIn) scenarioPhrase
           (setMnemonicInput "   " (chooseEthereum (initial emptyStorage))));
    reflexivity.
Defined.

Lemma loaded_keys_masked_witness :
  exists c,
    nth_error (shownCards (loadSavedWallets (initial tornStore))) 0 = Some c
    /\ privateKeyCopy c = None
    /\ exists bullets, shownPrivateKey c = Masked bullets /\ (bullets <= 40)%nat.
Proof.
  eexists. split; [reflexivity|].
  apply (loaded_keys_masked tornStore). left. reflexivity.
Defined.


Lemma phrase_shared_witness :
  exists w,
    nth_error (wallets (solanaSession [clickAddWallet; clickDelete 0 true])) 0 = Some w
    /\ mnemonic w
       = JS.join " " (mnemonicWords (solanaSession [clickAddWallet; clickDelete 0 true])).
Proof.
  unfold solanaSession. cbn [app].
  eexists ?[w].
  assert (K : nth_error
                (wallets (interact (pkg := standIn)
                            [clickSolana; clickGenerate scenarioPhrase; clickAddWallet;
                             clickDelete 0 true]
                            (initial emptyStorage))) 0 = Some ?w)
    by (vm_compute; reflexivity).
  split; [exact K|].
  exact (phrase_shared (pkg := standIn)
           [clickSolana; clickGenerate scenarioPhrase; clickAddWallet; clickDelete 0 true]
           (initial emptyStorage) _ eq_refl (nth_error_In _ _ K)).
Defined.

Lemma add_never_warns_witness :
  toasts (handle (pkg := standIn) (solanaSession [clickAddWallet; clickDelete 0 true])
            clickAddWallet)
  <> toasts (solanaSession [clickAddWallet; clickDelete 0 true])
     ++ [toast_warning "No mnemonic found. Generate a wallet first"].
Proof.
  unfold solanaSession. cbn [app].
  apply (add_never_warns (pkg := standIn)
           [clickSolana; clickGenerate scenarioPhrase; clickAddWallet; clickDelete 0 true]
           (initial emptyStorage) eq_refl).
  vm_compute. reflexivity.
Defined.

Lemma selection_is_one_chain_witness :
  pathTypes (solanaRun [addWallet; deleteWallet 1; deleteWallet 0]) = []
  \/ pathTypes (solanaRun [addWallet; deleteWallet 1; deleteWallet 0]) = ["501"%string]
  \/ pathTypes (solanaRun [addWallet; deleteWallet 1; deleteWallet 0]) = ["60"%string].
Proof.
  unfold solanaRun. cbn [app].
  apply (selection_is_one_chain (pkg := standIn)). reflexivity.
Defined.
